(** * seller-apis: reconciliation and batch synchronisation

    A shallow embedding of [seller.py] (the Seller storefront) and
    [market.py] (the Market storefront, campaigns FBS and DBS), and the
    properties of the reconciliation engine checked against it.

    Conventions of the embedding.
    - A Python [str] is a [string] holding its UTF-8 bytes.  Every test the
      code makes on characters ([0-9], ".", ">10", "1") is on ASCII bytes,
      and a multi-byte UTF-8 sequence holds no ASCII byte, so the byte
      view and the code-point view give the same results.
    - A Python [int] is a [Z].
    - A call that may raise returns a [result]; code that talks to the
      network threads a world [W] and returns an [io W].
    - A [while True] loop is run on fuel: [None] is "fuel exhausted", and
      never a value of the program.
    - A cell of the feed is modelled where it holds a [str] or an [int];
      responses of the two platforms are modelled where they are
      well-formed pages. *)

From Stdlib Require Import ZArith Ascii String Lia.
From stdpp Require Import base tactics option list strings pretty.

(** ** Exceptions and results *)

(** The exception classes the two programs can meet: the three families
    [main] tells apart ([requests.exceptions.ReadTimeout],
    [requests.exceptions.ConnectionError], anything else), with
    [HTTPError] being what [raise_for_status] raises. *)
Inductive exn : Type :=
| ReadTimeout
| ConnectionError
| HTTPError
| ValueError.

Inductive result (A : Type) : Type :=
| Ok (a : A)
| Raise (e : exn).
Arguments Ok {A} a.
Arguments Raise {A} e.

#[global] Instance result_ret : MRet result := fun A a => Ok a.
#[global] Instance result_bind : MBind result := fun A B f m =>
  match m with
  | Ok a => f a
  | Raise e => Raise e
  end.
#[global] Instance result_fmap : FMap result := fun A B f m =>
  match m with
  | Ok a => Ok (f a)
  | Raise e => Raise e
  end.

Definition is_Ok {A} (r : result A) : Prop := ∃ a, r = Ok a.

(** ** Python builtins used by the code *)

Definition is_digit (c : ascii) : bool :=
  let n := nat_of_ascii c in (48 <=? n)%nat && (n <=? 57)%nat.

Definition digit_value (c : ascii) : Z := Z.of_nat (nat_of_ascii c) - 48.

(** White space as [int()] strips it from an ASCII string: tab, line feed,
    vertical tab, form feed, carriage return and space. *)
Definition is_space (c : ascii) : bool :=
  let n := nat_of_ascii c in
  ((9 <=? n)%nat && (n <=? 13)%nat) || (n =? 32)%nat.

Fixpoint lstrip (s : list ascii) : list ascii :=
  match s with
  | c :: s' => if is_space c then lstrip s' else s
  | [] => []
  end.

Definition strip (s : list ascii) : list ascii := rev (lstrip (rev (lstrip s))).

(** Where the scan of an integer literal stands: nothing read yet, just
    after a digit, just after an underscore. *)
Inductive int_scan : Type := AtStart | AfterDigit | AfterUnderscore.

(** The digits of an integer literal in base ten: ASCII digits, with single
    underscores allowed between two digits. *)
Fixpoint int_digits (st : int_scan) (acc : Z) (s : list ascii) : result Z :=
  match s with
  | [] => match st with AfterDigit => Ok acc | _ => Raise ValueError end
  | c :: s' =>
      if is_digit c then int_digits AfterDigit (10 * acc + digit_value c) s'
      else if bool_decide (c = "_"%char) then
        match st with
        | AfterDigit => int_digits AfterUnderscore acc s'
        | _ => Raise ValueError
        end
      else Raise ValueError
  end.

(** The interpreter's bound on the number of digits of an integer literal
    read from a string, [sys.get_int_max_str_digits()], at its default. *)
Definition max_str_digits : Z := 4300.

(** The literal that follows the sign: [ValueError] when it holds more
    digits than the bound (leading zeros count, underscores do not), and
    when it is no literal. *)
Definition int_literal (ds : list ascii) : result Z :=
  if bool_decide (max_str_digits
                  < Z.of_nat (length (filter (λ c, is_digit c = true) ds)))%Z
  then Raise ValueError
  else int_digits AtStart 0 ds.

(** [int(s)] for a [str] argument made of ASCII characters: surrounding
    white space, an optional sign, then the literal; [ValueError]
    otherwise.  (Digits and white space outside ASCII, which [int] also
    accepts, are reported here as [ValueError]: a statement that a string
    is refused is made for ASCII strings only.) *)
Definition py_int (s : string) : result Z :=
  match strip (String.list_ascii_of_string s) with
  | c :: ds =>
      if bool_decide (c = "+"%char) then int_literal ds
      else if bool_decide (c = "-"%char) then Z.opp <$> int_literal ds
      else int_literal (c :: ds)
  | [] => Raise ValueError
  end.

(** [l.remove(x)]: drops the first element equal to [x]; [ValueError] when
    there is none. *)
Fixpoint py_remove (x : string) (l : list string) : result (list string) :=
  match l with
  | [] => Raise ValueError
  | y :: l' => if bool_decide (x = y) then Ok l' else (y ::.) <$> py_remove x l'
  end.

(** [range(0, stop, step)] for [0 <= stop]: [ValueError] for a zero step,
    empty for a negative one. *)
Definition py_range0 (stop : nat) (step : Z) : result (list nat) :=
  if bool_decide (step = 0)%Z then Raise ValueError
  else if bool_decide (step < 0)%Z then Ok []
  else
    let n := Z.to_nat step in
    Ok ((λ k, k * n) <$> seq 0 ((stop + n - 1) / n)).

(** [lst[i : j]] for [0 <= i <= j]. *)
Definition py_slice {A} (lst : list A) (i j : nat) : list A :=
  take (j - i) (drop i lst).

(** [s.split(sep)] for a one-character separator: the pieces between the
    separators, never an empty list. *)
Fixpoint py_split (sep : ascii) (s : string) : list string :=
  match s with
  | EmptyString => [EmptyString]
  | String c s' =>
      if bool_decide (c = sep) then EmptyString :: py_split sep s'
      else
        match py_split sep s' with
        | piece :: pieces => String c piece :: pieces
        | [] => [String c EmptyString]
        end
  end.

(** [re.sub("[^0-9]", "", s)]: every character outside [0-9] is deleted. *)
Fixpoint re_sub_non_digits (s : string) : string :=
  match s with
  | EmptyString => EmptyString
  | String c s' =>
      if is_digit c then String c (re_sub_non_digits s') else re_sub_non_digits s'
  end.

(** ** Code that talks to the network *)

(** A computation over a world [W]: it may run out of fuel ([None]), and
    otherwise ends in a value or an exception, in a new world. *)
Definition io (W A : Type) : Type := W → option (result A * W).

#[global] Instance io_ret {W} : MRet (io W) := λ A a w, Some (Ok a, w).
#[global] Instance io_bind {W} : MBind (io W) := λ A B f m w,
  match m w with
  | None => None
  | Some (Ok a, w') => f a w'
  | Some (Raise e, w') => Some (Raise e, w')
  end.

(** A pure call that may raise. *)
Definition lift {W A} (r : result A) : io W A := λ w, Some (r, w).

(** One request to a transport. *)
Definition call {W A} (f : W → result A * W) : io W A := λ w, Some (f w).

(** [try: body  except ...: handler]. *)
Definition try_except {W A} (body : io W A) (handler : exn → io W A) : io W A :=
  λ w,
    match body w with
    | None => None
    | Some (Ok a, w') => Some (Ok a, w')
    | Some (Raise e, w') => handler e w'
    end.

(** [for x in l: f(x)]. *)
Fixpoint for_each {W A} (f : A → io W unit) (l : list A) : io W unit :=
  match l with
  | [] => mret tt
  | x :: l' => f x;; for_each f l'
  end.

(** What the [except] clauses of the two [main] functions print. *)
Inductive printed : Type :=
| TimeoutMessage                  (* print("Превышено время ожидания...") *)
| ConnectionMessage (e : exn)     (* print(error, "Ошибка соединения") *)
| Error2Message (e : exn).        (* print(error, "ERROR_2") *)

(** The three [except] clauses, in the order both [main] functions list
    them. *)
Definition handlers {W} (print : printed → W → W) (e : exn) : io W unit :=
  λ w,
    match e with
    | ReadTimeout => Some (Ok tt, print TimeoutMessage w)
    | ConnectionError => Some (Ok tt, print (ConnectionMessage e) w)
    | _ => Some (Ok tt, print (Error2Message e) w)
    end.

(** ** seller.py *)

Module Seller.

(** An element of ["items"] in the product listing. *)
Module Product.
Record t : Type := mk { product_id : Z; offer_id : string }.
End Product.

(** The ["result"] object [get_product_list] returns. *)
Record product_page : Type := {
  items : list Product.t;
  total : Z;
  last_id : string;
}.

(** A record of the supplier feed, as the code reads it: [Kod] is
    [str(watch.get("Код"))], [Kolichestvo] is [str(watch.get("Количество"))]
    and [Tsena] is [watch.get("Цена")], a [str].  The quantity cell is a
    [str] or an [int]: an [int] cell [n] is held as its decimal string, on
    which [str] and [int] give what they give on [n], up to and including
    the [ValueError] of a number of more digits than the bound.  A cell of
    another type (a float, a date, a missing key), on which [int] of the
    cell and [int] of its string differ, is not a value of this record. *)
Record watch : Type := {
  Kod : string;
  Kolichestvo : string;
  Tsena : string;
}.

(** An element of the list [create_stocks] returns. *)
Module Stock.
Record t : Type := mk { offer_id : string; stock : Z }.
End Stock.

(** An element of the list [create_prices] returns. *)
Module Price.
Record t : Type := mk {
  auto_action_enabled : string;
  currency_code : string;
  offer_id : string;
  old_price : string;
  price : string;
}.
End Price.

(** Lines 174-180 (and market.py 141-147): the stock for a quantity cell,
    given as the string [count]; [int] is applied to the cell, which for
    the cells of [watch] is [int] of that string. *)
Definition bucket (count : string) : result Z :=
  if bool_decide (count = ">10") then Ok 100%Z
  else if bool_decide (count = "1") then Ok 0%Z
  else py_int count.

(** Lines 172-182: the loop over the feed.  [stocks] and [offer_ids] are the
    two lists the loop mutates. *)
Fixpoint create_stocks_loop (watch_remnants : list watch)
    (stocks : list Stock.t) (offer_ids : list string)
  : result (list Stock.t * list string) :=
  match watch_remnants with
  | [] => Ok (stocks, offer_ids)
  | watch :: rest =>
      if bool_decide (Kod watch ∈ offer_ids) then
        stock ← bucket (Kolichestvo watch);
        let stocks := stocks ++ [Stock.mk (Kod watch) stock] in
        offer_ids ← py_remove (Kod watch) offer_ids;
        create_stocks_loop rest stocks offer_ids
      else create_stocks_loop rest stocks offer_ids
  end.

(** [create_stocks(watch_remnants, offer_ids)].  The second component is the
    caller's [offer_ids] list as the call leaves it: the function removes
    from the very list object it was given. *)
Definition create_stocks (watch_remnants : list watch) (offer_ids : list string)
  : result (list Stock.t * list string) :=
  '(stocks, offer_ids) ← create_stocks_loop watch_remnants [] offer_ids;
  Ok (foldl (λ stocks offer_id, stocks ++ [Stock.mk offer_id 0%Z]) stocks offer_ids,
      offer_ids).

(** [price_conversion(price)]. *)
Definition price_conversion (price : string) : string :=
  re_sub_non_digits (default EmptyString (py_split "."%char price !! 0%nat)).

(** [create_prices(watch_remnants, offer_ids)]. *)
Definition create_prices (watch_remnants : list watch) (offer_ids : list string)
  : list Price.t :=
  foldl (λ prices watch,
           if bool_decide (Kod watch ∈ offer_ids) then
             prices ++ [Price.mk "UNKNOWN" "RUB" (Kod watch) "0"
                          (price_conversion (Tsena watch))]
           else prices)
        [] watch_remnants.

(** [list(divide(lst, n))]: the chunks the generator yields, in order. *)
Definition divide {A} (lst : list A) (n : Z) : result (list (list A)) :=
  (λ indices : list nat, (λ i, py_slice lst i (i + Z.to_nat n)) <$> indices)
    <$> py_range0 (length lst) n.

Section Transport.
Context {W : Type}.
(** The four functions of seller.py that do a request, for one client id
    and token, and the console. *)
Variable get_product_list : string → W → result product_page * W.
Variable update_price : list Price.t → W → result unit * W.
Variable update_stocks : list Stock.t → W → result unit * W.
Variable download_stock : W → result (list watch) * W.
Variable print : printed → W → W.

(** Lines 64-70: the [while True] loop of [get_offer_ids]. *)
Fixpoint get_offer_ids_loop (fuel : nat) (last_id : string)
    (product_list : list Product.t) : io W (list Product.t) :=
  match fuel with
  | O => λ _, None
  | S fuel =>
      some_prod ← call (get_product_list last_id);
      let product_list := product_list ++ items some_prod in
      if bool_decide (total some_prod = Z.of_nat (length product_list))
      then mret product_list
      else get_offer_ids_loop fuel (Seller.last_id some_prod) product_list
  end.

(** [get_offer_ids(client_id, seller_token)]. *)
Definition get_offer_ids (fuel : nat) : io W (list string) :=
  product_list ← get_offer_ids_loop fuel "" [];
  mret (Product.offer_id <$> product_list).

(** [main()] from line 300 on: the [try] statement.  Lines 297-299 before
    it read the token and the client identifier from the environment, for
    which the transports stand; a failure there is raised before anything
    modelled here runs. *)
Definition main (fuel : nat) : io W unit :=
  try_except
    (offer_ids ← get_offer_ids fuel;
     watch_remnants ← call download_stock;
     '(stocks, offer_ids) ← lift (create_stocks watch_remnants offer_ids);
     chunks ← lift (divide stocks 100);
     for_each (λ some_stock, call (update_stocks some_stock)) chunks;;
     let prices := create_prices watch_remnants offer_ids in
     chunks ← lift (divide prices 900);
     for_each (λ some_price, call (update_price some_price)) chunks)
    (handlers print).

End Transport.

Section Uploads.
Context {W : Type}.
Variable get_product_list : string → W → result product_page * W.
Variable update_price : list Price.t → W → result unit * W.
Variable update_stocks : list Stock.t → W → result unit * W.

(** [upload_prices(watch_remnants, client_id, seller_token)]: the body of
    the coroutine, as it runs once awaited (it holds no [await] itself). *)
Definition upload_prices (fuel : nat) (watch_remnants : list watch)
  : io W (list Price.t) :=
  offer_ids ← get_offer_ids get_product_list fuel;
  let prices := create_prices watch_remnants offer_ids in
  chunks ← lift (divide prices 1000);
  for_each (λ some_price, call (update_price some_price)) chunks;;
  mret prices.

(** [upload_stocks(watch_remnants, client_id, seller_token)], likewise; it
    returns the pair [(not_empty, stocks)]. *)
Definition upload_stocks (fuel : nat) (watch_remnants : list watch)
  : io W (list Stock.t * list Stock.t) :=
  offer_ids ← get_offer_ids get_product_list fuel;
  '(stocks, _) ← lift (create_stocks watch_remnants offer_ids);
  chunks ← lift (divide stocks 100);
  for_each (λ some_stock, call (update_stocks some_stock)) chunks;;
  let not_empty := filter (λ stock, Stock.stock stock ≠ 0%Z) stocks in
  mret (not_empty, stocks).

End Uploads.

End Seller.

(** ** market.py *)

Module Market.

(** An element of ["offerMappingEntries"]: [{"offer": {"shopSku": ...}}]. *)
Record offer_t : Type := { shopSku : string }.
Record offer_mapping_entry : Type := { offer : offer_t }.

(** The ["result"] object [get_product_list] returns; [nextPageToken] is
    [None] when the key is absent. *)
Record paging_t : Type := { nextPageToken : option string }.
Record product_page : Type := {
  offerMappingEntries : list offer_mapping_entry;
  paging : paging_t;
}.

(** An element of the list [create_stocks] returns. *)
Record item : Type := { count : Z; type : string; updatedAt : string }.
Module Stock.
Record t : Type := mk { sku : string; warehouseId : string; items : list item }.
End Stock.

Definition stock_of (sku warehouse_id date : string) (stock : Z) : Stock.t :=
  Stock.mk sku warehouse_id [{| count := stock; type := "FIT"; updatedAt := date |}].

(** Lines 139-161: the loop over the feed. *)
Fixpoint create_stocks_loop (date warehouse_id : string)
    (watch_remnants : list Seller.watch)
    (stocks : list Stock.t) (offer_ids : list string)
  : result (list Stock.t * list string) :=
  match watch_remnants with
  | [] => Ok (stocks, offer_ids)
  | watch :: rest =>
      if bool_decide (Seller.Kod watch ∈ offer_ids) then
        stock ← Seller.bucket (Seller.Kolichestvo watch);
        let stocks := stocks ++ [stock_of (Seller.Kod watch) warehouse_id date stock] in
        offer_ids ← py_remove (Seller.Kod watch) offer_ids;
        create_stocks_loop date warehouse_id rest stocks offer_ids
      else create_stocks_loop date warehouse_id rest stocks offer_ids
  end.

(** [create_stocks(watch_remnants, offer_ids, warehouse_id)]; [date] is the
    string line 138 builds from [datetime.datetime.utcnow()]. *)
Definition create_stocks (date : string) (watch_remnants : list Seller.watch)
    (offer_ids : list string) (warehouse_id : string)
  : result (list Stock.t * list string) :=
  '(stocks, offer_ids) ← create_stocks_loop date warehouse_id watch_remnants [] offer_ids;
  Ok (foldl (λ stocks offer_id, stocks ++ [stock_of offer_id warehouse_id date 0%Z])
        stocks offer_ids,
      offer_ids).

(** Python's truth value of the page token: [None] and [""] are false. *)
Definition truthy (page : option string) : bool :=
  match page with
  | Some s => negb (bool_decide (s = EmptyString))
  | None => false
  end.

Section Transport.
Context {W : Type}.
(** The functions of market.py that do a request, for one access token;
    [download_stock] is seller.py's; [utcnow] reads the clock. *)
Variable get_product_list : string → string → W → result product_page * W.
Variable update_stocks : list Stock.t → string → W → result unit * W.
Variable download_stock : W → result (list Seller.watch) * W.
Variable utcnow : W → string.
Variable print : printed → W → W.

(** Lines 113-118: the [while True] loop of [get_offer_ids]. *)
Fixpoint get_offer_ids_loop (fuel : nat) (campaign_id : string) (page : string)
    (product_list : list offer_mapping_entry) : io W (list offer_mapping_entry) :=
  match fuel with
  | O => λ _, None
  | S fuel =>
      some_prod ← call (get_product_list page campaign_id);
      let product_list := product_list ++ offerMappingEntries some_prod in
      let page := nextPageToken (paging some_prod) in
      if truthy page
      then get_offer_ids_loop fuel campaign_id (default EmptyString page) product_list
      else mret product_list
  end.

(** [get_offer_ids(campaign_id, market_token)]. *)
Definition get_offer_ids (fuel : nat) (campaign_id : string) : io W (list string) :=
  product_list ← get_offer_ids_loop fuel campaign_id "" [];
  mret ((λ product, shopSku (offer product)) <$> product_list).

(** Lines 268-274 and 277-283: what [main] does for one campaign.  The call
    [upload_prices(...)] that ends each block builds a coroutine object
    that nothing awaits, so none of its body runs. *)
Definition campaign_block (fuel : nat) (watch_remnants : list Seller.watch)
    (campaign_id warehouse_id : string) : io W unit :=
  offer_ids ← get_offer_ids fuel campaign_id;
  date ← (λ w, Some (Ok (utcnow w), w));
  '(stocks, _) ← lift (create_stocks date watch_remnants offer_ids warehouse_id);
  chunks ← lift (Seller.divide stocks 2000);
  for_each (λ some_stock, call (update_stocks some_stock campaign_id)) chunks.

(** [main()] from line 265 on, for the four identifiers lines 258-263
    read from the environment before it; a failure of these reads is
    raised before anything modelled here runs. *)
Definition main (fuel : nat)
    (campaign_fbs_id campaign_dbs_id warehouse_fbs_id warehouse_dbs_id : string)
  : io W unit :=
  watch_remnants ← call download_stock;
  try_except
    (campaign_block fuel watch_remnants campaign_fbs_id warehouse_fbs_id;;
     campaign_block fuel watch_remnants campaign_dbs_id warehouse_dbs_id)
    (handlers print).

End Transport.

(** An element of the list [create_prices] returns:
    [{"id": ..., "price": {"value": ..., "currencyId": ...}}]. *)
Record price_t : Type := { value : Z; currencyId : string }.
Module Price.
Record t : Type := mk { id : string; price : price_t }.
End Price.

(** Lines 195-209: the loop of [create_prices]. *)
Fixpoint create_prices_loop (watch_remnants : list Seller.watch)
    (prices : list Price.t) (offer_ids : list string) : result (list Price.t) :=
  match watch_remnants with
  | [] => Ok prices
  | watch :: rest =>
      if bool_decide (Seller.Kod watch ∈ offer_ids) then
        value ← py_int (Seller.price_conversion (Seller.Tsena watch));
        let price := Price.mk (Seller.Kod watch)
                       {| value := value; currencyId := "RUR" |} in
        create_prices_loop rest (prices ++ [price]) offer_ids
      else create_prices_loop rest prices offer_ids
  end.

(** [create_prices(watch_remnants, offer_ids)]. *)
Definition create_prices (watch_remnants : list Seller.watch) (offer_ids : list string)
  : result (list Price.t) :=
  create_prices_loop watch_remnants [] offer_ids.

(** [stock.get("items")[0].get("count")], the key of the filter in
    [upload_stocks].  Every entry [create_stocks] builds has one item; on an
    entry without items the subscript would raise, which is outside this
    function. *)
Definition first_count (stock : Stock.t) : Z :=
  match Stock.items stock with
  | i :: _ => count i
  | [] => 0%Z
  end.

Section Uploads.
Context {W : Type}.
Variable get_product_list : string → string → W → result product_page * W.
Variable update_stocks : list Stock.t → string → W → result unit * W.
Variable update_price : list Price.t → string → W → result unit * W.
Variable utcnow : W → string.

(** [upload_prices(watch_remnants, campaign_id, market_token)]: the body of
    the coroutine, as it runs once awaited. *)
Definition upload_prices (fuel : nat) (watch_remnants : list Seller.watch)
    (campaign_id : string) : io W (list Price.t) :=
  offer_ids ← get_offer_ids get_product_list fuel campaign_id;
  prices ← lift (create_prices watch_remnants offer_ids);
  chunks ← lift (Seller.divide prices 500);
  for_each (λ some_prices, call (update_price some_prices campaign_id)) chunks;;
  mret prices.

(** [upload_stocks(watch_remnants, campaign_id, market_token, warehouse_id)],
    likewise. *)
Definition upload_stocks (fuel : nat) (watch_remnants : list Seller.watch)
    (campaign_id warehouse_id : string) : io W (list Stock.t * list Stock.t) :=
  offer_ids ← get_offer_ids get_product_list fuel campaign_id;
  date ← (λ w, Some (Ok (utcnow w), w));
  '(stocks, _) ← lift (create_stocks date watch_remnants offer_ids warehouse_id);
  chunks ← lift (Seller.divide stocks 2000);
  for_each (λ some_stock, call (update_stocks some_stock campaign_id)) chunks;;
  let not_empty := filter (λ stock, first_count stock ≠ 0%Z) stocks in
  mret (not_empty, stocks).

End Uploads.

End Market.

(** ** Notions used to state the properties *)

(** [l] with the first element equal to [x] dropped; [l] itself when there
    is none. *)
Fixpoint remove_first (x : string) (l : list string) : list string :=
  match l with
  | [] => []
  | y :: l' => if bool_decide (x = y) then l' else y :: remove_first x l'
  end.

(** The feed records the loop of [create_stocks] takes, in feed order, and
    the identifiers it leaves in [offer_ids]. *)
Fixpoint matched (watch_remnants : list Seller.watch) (offer_ids : list string)
  : list Seller.watch :=
  match watch_remnants with
  | [] => []
  | watch :: rest =>
      if bool_decide (Seller.Kod watch ∈ offer_ids)
      then watch :: matched rest (remove_first (Seller.Kod watch) offer_ids)
      else matched rest offer_ids
  end.

Fixpoint remaining (watch_remnants : list Seller.watch) (offer_ids : list string)
  : list string :=
  match watch_remnants with
  | [] => offer_ids
  | watch :: rest =>
      if bool_decide (Seller.Kod watch ∈ offer_ids)
      then remaining rest (remove_first (Seller.Kod watch) offer_ids)
      else remaining rest offer_ids
  end.

(** The stock entries of a list of matched records, or the first exception
    their quantities give. *)
Fixpoint bucket_all (ws : list Seller.watch) : result (list Seller.Stock.t) :=
  match ws with
  | [] => Ok []
  | w :: ws' =>
      match Seller.bucket (Seller.Kolichestvo w) with
      | Ok stock => (Seller.Stock.mk (Seller.Kod w) stock ::.) <$> bucket_all ws'
      | Raise e => Raise e
      end
  end.

(** The entries the second loop of [create_stocks] appends. *)
Definition zero_stocks (offer_ids : list string) : list Seller.Stock.t :=
  (λ offer_id, Seller.Stock.mk offer_id 0%Z) <$> offer_ids.

(** The entry [create_prices] builds for a feed record. *)
Definition price_entry (watch : Seller.watch) : Seller.Price.t :=
  Seller.Price.mk "UNKNOWN" "RUB" (Seller.Kod watch) "0"
    (Seller.price_conversion (Seller.Tsena watch)).

(** The entries of market.py's [create_prices] for a list of records, or the
    first exception their prices give. *)
Fixpoint market_price_all (ws : list Seller.watch) : result (list Market.Price.t) :=
  match ws with
  | [] => Ok []
  | w :: ws' =>
      match py_int (Seller.price_conversion (Seller.Tsena w)) with
      | Ok v =>
          (Market.Price.mk (Seller.Kod w)
             {| Market.value := v; Market.currencyId := "RUR" |} ::.)
            <$> market_price_all ws'
      | Raise e => Raise e
      end
  end.

(** One step of reading a number in base ten. *)
Definition horner (acc : Z) (c : ascii) : Z := (10 * acc + digit_value c)%Z.

(** How many times [x] stands in [l]. *)
Definition occurrences (x : string) (l : list string) : nat :=
  length (filter (λ y, y = x) l).

(** Positional notation: [decimal s N] when [s] is a non-empty string of
    ASCII digits that reads as [N] in base ten. *)
Inductive decimal : string → Z → Prop :=
| decimal_digit c :
    is_digit c = true → decimal (String c EmptyString) (digit_value c)
| decimal_snoc s N c :
    decimal s N → is_digit c = true →
    decimal (s +:+ String c EmptyString) (10 * N + digit_value c).

(** A quantity cell of the data model: one of the two sentinels or an exact
    non-negative integer, written with no more digits than [int] reads. *)
Definition quantity_expr (s : string) : Prop :=
  s = ">10" ∨ s = "1"
  ∨ ∃ N, decimal s N ∧ (Z.of_nat (String.length s) ≤ max_str_digits)%Z.

(** The price normalisation in the specification's words: keep what stands
    before the first ".", and of that only the digits. *)
Fixpoint before_first_dot (s : string) : string :=
  match s with
  | EmptyString => EmptyString
  | String c s' =>
      if bool_decide (c = "."%char) then EmptyString else String c (before_first_dot s')
  end.

Definition normalize_price (s : string) : string :=
  String.string_of_list_ascii
    (filter (λ c, is_digit c = true) (String.list_ascii_of_string (before_first_dot s))).

(** The Market payload of a Seller stock entry. *)
Definition market_stock (warehouse_id date : string) (e : Seller.Stock.t) : Market.Stock.t :=
  Market.stock_of (Seller.Stock.offer_id e) warehouse_id date (Seller.Stock.stock e).

(** The stock a Market entry carries: the count of its single item. *)
Definition market_count (e : Market.Stock.t) : Z :=
  match Market.Stock.items e with
  | i :: _ => Market.count i
  | [] => 0%Z
  end.

(** *** Runs of the two pagers *)

Section SellerPaging.
Context {W : Type}.
Variable get_product_list : string → W → result Seller.product_page * W.

(** [seller_paging w last_id acc pages w']: from world [w], cursor [last_id]
    and [acc] products already collected, the requests answer [pages] one
    after the other, each cursor being the previous page's, and the last
    page is the first whose total equals the number of products collected;
    [w'] is the world after it. *)
Inductive seller_paging :
  W → string → list Seller.Product.t → list Seller.product_page → W → Prop :=
| seller_paging_last w last_id acc p w' :
    get_product_list last_id w = (Ok p, w') →
    Seller.total p = Z.of_nat (length (acc ++ Seller.items p)) →
    seller_paging w last_id acc [p] w'
| seller_paging_more w last_id acc p w' ps w'' :
    get_product_list last_id w = (Ok p, w') →
    Seller.total p ≠ Z.of_nat (length (acc ++ Seller.items p)) →
    seller_paging w' (Seller.last_id p) (acc ++ Seller.items p) ps w'' →
    seller_paging w last_id acc (p :: ps) w''.
End SellerPaging.

Section MarketPaging.
Context {W : Type}.
Variable get_product_list : string → string → W → result Market.product_page * W.

(** [market_paging campaign w page pages w']: from world [w] and page token
    [page], the requests answer [pages] one after the other, each token
    being the previous page's, and the last page is the first with an
    empty or absent token. *)
Inductive market_paging (campaign_id : string) :
  W → string → list Market.product_page → W → Prop :=
| market_paging_last w page p w' :
    get_product_list page campaign_id w = (Ok p, w') →
    Market.truthy (Market.nextPageToken (Market.paging p)) = false →
    market_paging campaign_id w page [p] w'
| market_paging_more w page p w' ps w'' :
    get_product_list page campaign_id w = (Ok p, w') →
    Market.truthy (Market.nextPageToken (Market.paging p)) = true →
    market_paging campaign_id w'
      (default EmptyString (Market.nextPageToken (Market.paging p))) ps w'' →
    market_paging campaign_id w page (p :: ps) w''.
End MarketPaging.

(** *** Runs of the two pagers that end in a failure *)

Section SellerPagingFails.
Context {W : Type}.
Variable get_product_list : string → W → result Seller.product_page * W.

(** [seller_paging_fails n w last_id acc e w']: from world [w], cursor
    [last_id] and [acc] products already collected, the [n]-th request
    raises [e] and leaves [w']; the requests before it answer pages, each
    asked at the cursor of the previous one, none of which has a total
    equal to the number of products collected. *)
Inductive seller_paging_fails :
  nat → W → string → list Seller.Product.t → exn → W → Prop :=
| seller_fails_now w last_id acc e w' :
    get_product_list last_id w = (Raise e, w') →
    seller_paging_fails 1 w last_id acc e w'
| seller_fails_later n w last_id acc p w' e w'' :
    get_product_list last_id w = (Ok p, w') →
    Seller.total p ≠ Z.of_nat (length (acc ++ Seller.items p)) →
    seller_paging_fails n w' (Seller.last_id p) (acc ++ Seller.items p) e w'' →
    seller_paging_fails (S n) w last_id acc e w''.
End SellerPagingFails.

Section MarketPagingFails.
Context {W : Type}.
Variable get_product_list : string → string → W → result Market.product_page * W.

(** [market_paging_fails campaign n w page e w']: from world [w] and page
    token [page], the [n]-th request raises [e] and leaves [w']; the
    requests before it answer pages, each asked at the token of the
    previous one, all of which carry a non-empty token. *)
Inductive market_paging_fails (campaign_id : string) :
  nat → W → string → exn → W → Prop :=
| market_fails_now w page e w' :
    get_product_list page campaign_id w = (Raise e, w') →
    market_paging_fails campaign_id 1 w page e w'
| market_fails_later n w page p w' e w'' :
    get_product_list page campaign_id w = (Ok p, w') →
    Market.truthy (Market.nextPageToken (Market.paging p)) = true →
    market_paging_fails campaign_id n w'
      (default EmptyString (Market.nextPageToken (Market.paging p))) e w'' →
    market_paging_fails campaign_id (S n) w page e w''.
End MarketPagingFails.

(** The identifiers on a list of pages, in page order. *)
Definition seller_page_ids (pages : list Seller.product_page) : list string :=
  Seller.Product.offer_id <$> concat (Seller.items <$> pages).

Definition market_page_ids (pages : list Market.product_page) : list string :=
  (λ product, Market.shopSku (Market.offer product))
    <$> concat (Market.offerMappingEntries <$> pages).

(** ** Test transports *)

Module Mock.

(** What a recording transport writes down. *)
Inductive event : Type :=
| StocksSent (campaign_id : string) (skus : list string)
| PricesSent (offer_ids : list string)
| Printed (m : printed).

Definition entry (sku : string) : Market.offer_mapping_entry :=
  {| Market.offer := {| Market.shopSku := sku |} |}.

Definition market_page (skus : list string) (next : option string) : Market.product_page :=
  {| Market.offerMappingEntries := entry <$> skus;
     Market.paging := {| Market.nextPageToken := next |} |}.

(** Three pages of cursors, then an empty cursor; the third page repeats an
    identifier of the first. *)
Definition three_pages (page campaign_id : string) (w : unit)
  : result Market.product_page * unit :=
  if bool_decide (page = "") then (Ok (market_page ["A"; "B"] (Some "p2")), w)
  else if bool_decide (page = "p2") then (Ok (market_page ["C"] (Some "p3")), w)
  else if bool_decide (page = "p3") then (Ok (market_page ["A"] (Some "")), w)
  else (Raise HTTPError, w).

Definition product (n : Z) (offer_id : string) : Seller.Product.t :=
  Seller.Product.mk n offer_id.

(** A Seller catalogue of three products on two pages. *)
Definition two_pages (last_id : string) (w : unit) : result Seller.product_page * unit :=
  if bool_decide (last_id = "") then
    (Ok {| Seller.items := [product 1 "A"; product 2 "B"];
           Seller.total := 3; Seller.last_id := "x" |}, w)
  else if bool_decide (last_id = "x") then
    (Ok {| Seller.items := [product 3 "C"];
           Seller.total := 3; Seller.last_id := "" |}, w)
  else (Raise HTTPError, w).

Definition two_pages_answers : list Seller.product_page :=
  [ {| Seller.items := [product 1 "A"; product 2 "B"];
       Seller.total := 3; Seller.last_id := "x" |};
    {| Seller.items := [product 3 "C"];
       Seller.total := 3; Seller.last_id := "" |} ].

Definition three_pages_answers : list Market.product_page :=
  [ market_page ["A"; "B"] (Some "p2");
    market_page ["C"] (Some "p3");
    market_page ["A"] (Some "") ].

(** The feed of the end-to-end scenario. *)
Definition feed : list Seller.watch :=
  [ {| Seller.Kod := "A"; Seller.Kolichestvo := ">10"; Seller.Tsena := "100.00" |};
    {| Seller.Kod := "B"; Seller.Kolichestvo := "1"; Seller.Tsena := "50.00" |} ].

(** Two records listed in the opposite order of the identifiers ["A"; "B"]. *)
Definition swapped_feed : list Seller.watch :=
  [ {| Seller.Kod := "B"; Seller.Kolichestvo := "5"; Seller.Tsena := "20.00" |};
    {| Seller.Kod := "A"; Seller.Kolichestvo := "3"; Seller.Tsena := "10.00" |} ].

(** A record whose quantity is no quantity expression. *)
Definition bad_feed : list Seller.watch :=
  [ {| Seller.Kod := "A"; Seller.Kolichestvo := "abc"; Seller.Tsena := "10.00" |} ].

Definition one_record : list Seller.watch :=
  [ {| Seller.Kod := "A"; Seller.Kolichestvo := "5"; Seller.Tsena := "10.00" |} ].

(** A Market with one page per campaign, whose stock submission fails for
    the campaigns listed in [failing]; every accepted batch is recorded. *)
Definition market_list (page campaign_id : string) (w : list event)
  : result Market.product_page * list event :=
  (Ok (market_page ["A"; "B"; "C"] None), w).

Definition market_update_stocks (failing : list string)
    (stocks : list Market.Stock.t) (campaign_id : string) (w : list event)
  : result unit * list event :=
  if bool_decide (campaign_id ∈ failing) then (Raise HTTPError, w)
  else (Ok tt, w ++ [StocksSent campaign_id (Market.Stock.sku <$> stocks)]).

Definition download (w : list event) : result (list Seller.watch) * list event :=
  (Ok feed, w).

Definition clock (w : list event) : string := "2024-01-01T00:00:00Z".

Definition console (m : printed) (w : list event) : list event := w ++ [Printed m].

Definition market_main (failing : list string) : io (list event) unit :=
  Market.main market_list (market_update_stocks failing) download clock console
    1 "FBS" "DBS" "W1" "W2".

(** The batches a run submitted for one campaign. *)
Definition sent_for (campaign_id : string) (w : list event) : list (list string) :=
  omap (λ ev, match ev with
              | StocksSent c skus => if bool_decide (c = campaign_id) then Some skus else None
              | _ => None
              end) w.

(** A submission that fails for a batch starting with "B". *)
Definition flaky_update_stocks (stocks : list Market.Stock.t) (campaign_id : string)
    (w : list event) : result unit * list event :=
  match stocks with
  | e :: _ =>
      if bool_decide (Market.Stock.sku e = "B") then (Raise ConnectionError, w)
      else (Ok tt, w ++ [StocksSent campaign_id (Market.Stock.sku <$> stocks)])
  | [] => (Ok tt, w ++ [StocksSent campaign_id []])
  end.

Definition three_batches : list (list Market.Stock.t) :=
  [ [Market.stock_of "A" "W1" "2024-01-01T00:00:00Z" 100];
    [Market.stock_of "B" "W1" "2024-01-01T00:00:00Z" 0];
    [Market.stock_of "C" "W1" "2024-01-01T00:00:00Z" 0] ].

(** A Seller with its three products on one page; every batch is recorded. *)
Definition seller_list (last_id : string) (w : list event)
  : result Seller.product_page * list event :=
  (Ok {| Seller.items := [product 1 "A"; product 2 "B"; product 3 "C"];
         Seller.total := 3; Seller.last_id := "" |}, w).

Definition seller_update_stocks (stocks : list Seller.Stock.t) (w : list event)
  : result unit * list event :=
  (Ok tt, w ++ [StocksSent "" (Seller.Stock.offer_id <$> stocks)]).

Definition seller_update_price (prices : list Seller.Price.t) (w : list event)
  : result unit * list event :=
  (Ok tt, w ++ [PricesSent (Seller.Price.offer_id <$> prices)]).

Definition seller_main : io (list event) unit :=
  Seller.main seller_list seller_update_price seller_update_stocks download console 1.

(** A Seller listing that keeps answering two products and a total of 1. *)
Definition stale_total (last_id : string) (w : unit) : result Seller.product_page * unit :=
  (Ok {| Seller.items := [product 1 "A"; product 2 "B"];
         Seller.total := 1; Seller.last_id := "x" |}, w).

(** A Seller stock submission that times out. *)
Definition seller_timeout_stocks (stocks : list Seller.Stock.t) (w : list event)
  : result unit * list event := (Raise ReadTimeout, w).

Definition market_update_price (prices : list Market.Price.t) (campaign_id : string)
    (w : list event) : result unit * list event :=
  (Ok tt, w ++ [PricesSent (Market.Price.id <$> prices)]).

(** A quantity of 4301 digits, and a feed that carries it. *)
Definition long_quantity : string :=
  String.string_of_list_ascii (replicate 4301 "7"%char).

Definition long_feed : list Seller.watch :=
  [ {| Seller.Kod := "A"; Seller.Kolichestvo := long_quantity;
       Seller.Tsena := "10.00" |} ].

(** A listing whose second request fails. *)
Definition second_fails (last_id : string) (w : unit)
  : result Seller.product_page * unit :=
  if bool_decide (last_id = "") then
    (Ok {| Seller.items := [product 1 "A"; product 2 "B"];
           Seller.total := 3; Seller.last_id := "x" |}, w)
  else (Raise ReadTimeout, w).

(** A feed that lists the code "A" twice. *)
Definition repeated_feed : list Seller.watch :=
  [ {| Seller.Kod := "A"; Seller.Kolichestvo := "5"; Seller.Tsena := "10.00" |};
    {| Seller.Kod := "A"; Seller.Kolichestvo := "abc"; Seller.Tsena := "12.00" |} ].

(** A feed of three records, the second of which has a quantity that is no
    quantity expression, between two records of the code "A". *)
Definition interleaved_feed : list Seller.watch :=
  [ {| Seller.Kod := "A"; Seller.Kolichestvo := "5"; Seller.Tsena := "10.00" |};
    {| Seller.Kod := "B"; Seller.Kolichestvo := "abc"; Seller.Tsena := "11.00" |};
    {| Seller.Kod := "A"; Seller.Kolichestvo := "7"; Seller.Tsena := "12.00" |} ].

End Mock.

(** * Properties *)

(** ** Facts about the builtins *)

Lemma py_remove_elem x l : x ∈ l → py_remove x l = Ok (remove_first x l).
Proof.
  induction l as [|y l IH]; intros Hx; [by apply elem_of_nil in Hx|].
  simpl. case_bool_decide as Hxy; [done|].
  apply elem_of_cons in Hx as [?|Hx]; [done|].
  by rewrite IH.
Qed.

Lemma remove_first_sublist x l : remove_first x l `sublist_of` l.
Proof.
  induction l as [|y l IH]; simpl; [done|].
  case_bool_decide; [by apply sublist_cons | by apply sublist_skip].
Qed.

Lemma remove_first_perm x l : x ∈ l → l ≡ₚ x :: remove_first x l.
Proof.
  induction l as [|y l IH]; intros Hx; [by apply elem_of_nil in Hx|].
  simpl. case_bool_decide as Hxy; [by subst|].
  apply elem_of_cons in Hx as [?|Hx]; [done|].
  rewrite (IH Hx) at 1. apply Permutation_swap.
Qed.

Lemma remove_first_elem_ne x y l : x ≠ y → y ∈ remove_first x l ↔ y ∈ l.
Proof.
  intros Hne. induction l as [|z l IH]; simpl; [done|].
  case_bool_decide as Hxz.
  - subst z. rewrite elem_of_cons. split; [by right|]. by intros [?|?].
  - by rewrite !elem_of_cons, IH.
Qed.

Lemma filter_ext_elem {A} (P Q : A → Prop)
    `{!∀ x, Decision (P x), !∀ x, Decision (Q x)} (l : list A) :
  (∀ x, x ∈ l → P x ↔ Q x) → filter P l = filter Q l.
Proof.
  induction l as [|a l IH]; intros HPQ; [done|].
  rewrite !filter_cons.
  rewrite IH by (intros x Hx; apply HPQ; by right).
  apply decide_ext, HPQ. by left.
Qed.

Lemma filter_all {A} (P : A → Prop) `{!∀ x, Decision (P x)} (l : list A) :
  (∀ x, x ∈ l → P x) → filter P l = l.
Proof.
  induction l as [|a l IH]; intros HP; [done|].
  rewrite filter_cons_True by (apply HP; by left).
  f_equal. apply IH. intros x Hx. apply HP. by right.
Qed.

Lemma remove_first_NoDup x l : NoDup l → remove_first x l = filter (λ y, y ≠ x) l.
Proof.
  induction 1 as [|y l Hy Hl IH]; simpl; [done|].
  case_bool_decide as Hxy.
  - subst y. rewrite filter_cons_False by (by intros ?).
    rewrite filter_all; [done|]. by intros z Hz ->.
  - rewrite filter_cons_True by (by intros ->). by rewrite IH.
Qed.

Lemma occurrences_cons x y l :
  occurrences x (y :: l) = (if bool_decide (y = x) then 1 else 0) + occurrences x l.
Proof.
  unfold occurrences. rewrite filter_cons.
  case_bool_decide; [by rewrite decide_True|by rewrite decide_False].
Qed.

Lemma occurrences_not_elem x l : x ∉ l → occurrences x l = 0.
Proof.
  induction l as [|y l IH]; [done|].
  rewrite not_elem_of_cons, occurrences_cons. intros [? ?].
  rewrite bool_decide_eq_false_2 by done. by rewrite IH.
Qed.

Lemma occurrences_remove_first x y l :
  y ∈ l →
  occurrences x (remove_first y l) = occurrences x l - (if bool_decide (y = x) then 1 else 0).
Proof.
  induction l as [|z l IH]; intros Hy; [by apply elem_of_nil in Hy|].
  simpl. destruct (decide (y = z)) as [->|Hyz].
  - rewrite bool_decide_eq_true_2, occurrences_cons by done. lia.
  - rewrite bool_decide_eq_false_2 by done.
    apply elem_of_cons in Hy as [?|Hy]; [done|].
    rewrite !occurrences_cons, IH by done.
    destruct (decide (y = x)) as [->|Hyx].
    2:{ rewrite (bool_decide_eq_false_2 (y = x)) by done. lia. }
    rewrite (bool_decide_eq_true_2 (x = x)) by done.
    rewrite (bool_decide_eq_false_2 (z = x)) by done.
    assert (0 < occurrences x l); [|lia].
    clear -Hy. induction l as [|z l IH]; [by apply elem_of_nil in Hy|].
    rewrite occurrences_cons. apply elem_of_cons in Hy as [<-|Hy].
    + rewrite bool_decide_eq_true_2 by done. lia.
    + specialize (IH Hy). lia.
Qed.

(** ** The loop of [create_stocks] *)

Section reconciliation.
Import Seller.

Lemma matched_sublist F U : matched F U `sublist_of` F.
Proof.
  revert U. induction F as [|w F IH]; intros U; simpl; [done|].
  case_bool_decide; [by apply sublist_skip | by apply sublist_cons].
Qed.

Lemma remaining_sublist F U : remaining F U `sublist_of` U.
Proof.
  revert U. induction F as [|w F IH]; intros U; simpl; [done|].
  case_bool_decide; [|done].
  etrans; [apply IH | apply remove_first_sublist].
Qed.

Lemma matched_remaining_perm F U : (Kod <$> matched F U) ++ remaining F U ≡ₚ U.
Proof.
  revert U. induction F as [|w F IH]; intros U; simpl; [done|].
  case_bool_decide as Hw; [|done].
  rewrite fmap_cons. simpl. rewrite IH. symmetry. by apply remove_first_perm.
Qed.

Lemma matched_elem F U w : w ∈ matched F U → w ∈ F ∧ Kod w ∈ U.
Proof.
  revert U. induction F as [|w0 F IH]; intros U; simpl; [by intros ?%elem_of_nil|].
  case_bool_decide as Hw.
  - intros [->|Hin]%elem_of_cons; [split; [by left|done]|].
    destruct (IH _ Hin) as [? Hrem]. split; [by right|].
    by apply (sublist_subseteq _ _ (remove_first_sublist (Kod w0) U)).
  - intros Hin. destruct (IH _ Hin). split; [by right|done].
Qed.

Lemma remaining_occurrences F U x :
  occurrences x (remaining F U) = occurrences x U - occurrences x (Kod <$> F).
Proof.
  revert U. induction F as [|w F IH]; intros U.
  - unfold occurrences at 3. simpl. lia.
  - rewrite fmap_cons, occurrences_cons. cbn [remaining]. destruct (decide (Kod w ∈ U)) as [Hw|Hw].
    + rewrite (bool_decide_eq_true_2 _ Hw), IH, occurrences_remove_first by done.
      destruct (bool_decide (Kod w = x)); lia.
    + rewrite (bool_decide_eq_false_2 _ Hw), IH.
      case_bool_decide; [|lia]. subst x.
      rewrite (occurrences_not_elem _ U) by done. lia.
Qed.

Lemma remaining_NoDup F U :
  NoDup U → remaining F U = filter (λ u, u ∉ Kod <$> F) U.
Proof.
  revert U. induction F as [|w F IH]; intros U HU; simpl.
  - rewrite filter_all; [done|]. by intros z _ ?%elem_of_nil.
  - case_bool_decide as Hw.
    + rewrite IH by (by apply (sublist_NoDup _ U), remove_first_sublist).
      rewrite remove_first_NoDup, list_filter_filter by done.
      apply list_filter_iff. intros u. rewrite not_elem_of_cons. tauto.
    + rewrite IH by done. apply filter_ext_elem. intros u Hu.
      rewrite not_elem_of_cons. split; [|tauto].
      intros Hu'. split; [|done]. by intros ->.
Qed.

Lemma matched_app F1 F2 U :
  matched (F1 ++ F2) U = matched F1 U ++ matched F2 (remaining F1 U)
  ∧ remaining (F1 ++ F2) U = remaining F2 (remaining F1 U).
Proof.
  revert U. induction F1 as [|w F1 IH]; intros U; simpl; [done|].
  case_bool_decide; [|apply IH].
  destruct (IH (remove_first (Kod w) U)) as [-> ->]. done.
Qed.

Lemma remove_first_not_elem x l : x ∉ l → remove_first x l = l.
Proof.
  induction l as [|y l IH]; [done|].
  rewrite not_elem_of_cons. intros [Hxy Hx]. simpl.
  rewrite bool_decide_eq_false_2 by done. by rewrite IH.
Qed.

Lemma remove_first_split x l :
  x ∈ l →
  ∃ l1 l2, l = l1 ++ (x :: l2) ∧ ¬ (x ∈ l1) ∧ remove_first x l = l1 ++ l2.
Proof.
  induction l as [|y l IH]; intros Hx; [by apply elem_of_nil in Hx|].
  simpl. case_bool_decide as Hxy.
  - subst y. exists [], l. split_and!; [done| |done]. by intros ?%elem_of_nil.
  - apply elem_of_cons in Hx as [?|Hx]; [done|].
    destruct (IH Hx) as (l1 & l2 & -> & Hl1 & ->).
    exists (y :: l1), l2. split_and!; [done| |done].
    rewrite not_elem_of_cons. by split.
Qed.

Lemma remaining_foldl F U :
  remaining F U = foldl (λ l w, remove_first (Kod w) l) U F.
Proof.
  revert U. induction F as [|w F IH]; intros U; simpl; [done|].
  case_bool_decide as Hw; [apply IH|].
  by rewrite (remove_first_not_elem _ _ Hw).
Qed.

Lemma matched_NoDup F U :
  NoDup (Kod <$> F) → matched F U = filter (λ w, Kod w ∈ U) F.
Proof.
  revert U. induction F as [|w F IH]; intros U HF; simpl; [done|].
  rewrite fmap_cons in HF. apply NoDup_cons in HF as [Hw HF].
  rewrite filter_cons. case_bool_decide as HwU.
  - rewrite decide_True by done. f_equal. rewrite IH by done.
    apply filter_ext_elem. intros w' Hw'. apply remove_first_elem_ne.
    intros Heq. apply Hw. rewrite Heq. by apply list_elem_of_fmap_2.
  - rewrite decide_False by done. by apply IH.
Qed.

Lemma create_stocks_loop_spec F stocks U :
  create_stocks_loop F stocks U =
  match bucket_all (matched F U) with
  | Ok es => Ok (stocks ++ es, remaining F U)
  | Raise e => Raise e
  end.
Proof.
  revert stocks U. induction F as [|w F IH]; intros stocks U; simpl.
  - by rewrite app_nil_r.
  - case_bool_decide as Hw; [|by apply IH].
    simpl. destruct (bucket (Kolichestvo w)) as [stock|e]; simpl; [|done].
    rewrite py_remove_elem by done. simpl. rewrite IH.
    destruct (bucket_all _) as [es|e]; simpl; [|done].
    by rewrite <-app_assoc.
Qed.

Lemma foldl_zero_stocks stocks U :
  foldl (λ stocks offer_id, stocks ++ [Stock.mk offer_id 0%Z]) stocks U
  = stocks ++ zero_stocks U.
Proof.
  revert stocks. induction U as [|u U IH]; intros stocks; simpl.
  - by rewrite app_nil_r.
  - rewrite IH, <-app_assoc. done.
Qed.

Lemma create_stocks_spec F U :
  create_stocks F U =
  match bucket_all (matched F U) with
  | Ok es => Ok (es ++ zero_stocks (remaining F U), remaining F U)
  | Raise e => Raise e
  end.
Proof.
  unfold create_stocks. rewrite create_stocks_loop_spec.
  destruct (bucket_all _) as [es|e]; simpl; [|done].
  by rewrite foldl_zero_stocks.
Qed.

Lemma market_create_stocks_loop_spec date wh F stocks U :
  Market.create_stocks_loop date wh F stocks U =
  match bucket_all (matched F U) with
  | Ok es => Ok (stocks ++ (market_stock wh date <$> es), remaining F U)
  | Raise e => Raise e
  end.
Proof.
  revert stocks U. induction F as [|w F IH]; intros stocks U; simpl.
  - by rewrite app_nil_r.
  - case_bool_decide as Hw; [|by apply IH].
    simpl. destruct (bucket (Kolichestvo w)) as [stock|e]; simpl; [|done].
    rewrite py_remove_elem by done. simpl. rewrite IH.
    destruct (bucket_all _) as [es|e]; simpl; [|done].
    by rewrite <-app_assoc.
Qed.

Lemma market_create_stocks_spec date F U wh :
  Market.create_stocks date F U wh =
  match create_stocks F U with
  | Ok (out, U') => Ok (market_stock wh date <$> out, U')
  | Raise e => Raise e
  end.
Proof.
  unfold Market.create_stocks.
  rewrite market_create_stocks_loop_spec, create_stocks_spec.
  destruct (bucket_all _) as [es|e]; simpl; [|done].
  f_equal. f_equal. rewrite fmap_app. f_equal.
  generalize (market_stock wh date <$> es). unfold zero_stocks.
  induction (remaining F U) as [|u l IHl]; intros acc; simpl.
  - by rewrite app_nil_r.
  - rewrite IHl, <-app_assoc. done.
Qed.

(** ** [int] and the quantity policy *)

Lemma int_digits_raise st acc s e : int_digits st acc s = Raise e → e = ValueError.
Proof.
  revert st acc. induction s as [|c s IH]; intros st acc; simpl.
  - destruct st; congruence.
  - destruct (is_digit c); [apply IH|].
    case_bool_decide; [|congruence].
    destruct st; try congruence. apply IH.
Qed.

Lemma int_literal_raise ds e : int_literal ds = Raise e → e = ValueError.
Proof.
  unfold int_literal. case_bool_decide; [congruence|apply int_digits_raise].
Qed.

Lemma py_int_raise s e : py_int s = Raise e → e = ValueError.
Proof.
  unfold py_int. destruct (strip _) as [|c ds]; [congruence|].
  destruct (bool_decide (c = "+"%char)); [apply int_literal_raise|].
  destruct (bool_decide (c = "-"%char)); [|apply int_literal_raise].
  destruct (int_literal ds) eqn:Hd; simpl; [done|].
  intros [= <-]. by apply int_literal_raise in Hd.
Qed.

Lemma bucket_raise s e : bucket s = Raise e → e = ValueError.
Proof.
  unfold bucket. repeat case_bool_decide; try done. apply py_int_raise.
Qed.

Lemma is_digit_not_space c : is_digit c = true → is_space c = false.
Proof.
  unfold is_digit, is_space. cbv zeta.
  intros [H1%Nat.leb_le H2%Nat.leb_le]%andb_prop.
  apply orb_false_intro.
  - apply andb_false_iff. right. apply Nat.leb_gt. lia.
  - apply Nat.eqb_neq. lia.
Qed.

Lemma is_digit_not_sign c :
  is_digit c = true → c ≠ "+"%char ∧ c ≠ "-"%char ∧ c ≠ "_"%char.
Proof. intros Hc. repeat split; intros ->; vm_compute in Hc; discriminate. Qed.

Lemma int_digits_all_digits st acc l :
  Forall (λ c, is_digit c = true) l → l ≠ [] →
  int_digits st acc l = Ok (foldl horner acc l).
Proof.
  intros Hl. revert st acc. induction Hl as [|c l Hc Hl IH]; intros st acc Hne; [done|].
  simpl. rewrite Hc. destruct l as [|c' l]; [done|]. by apply IH.
Qed.

Lemma lstrip_digit c l : is_digit c = true → lstrip (c :: l) = c :: l.
Proof. intros Hc. simpl. by rewrite is_digit_not_space. Qed.

Lemma strip_all_digits l :
  Forall (λ c, is_digit c = true) l → strip l = l.
Proof.
  intros Hl. unfold strip.
  destruct l as [|c l]; [done|].
  rewrite lstrip_digit by (by inversion Hl).
  destruct (rev (c :: l)) as [|d r] eqn:Hrev.
  - simpl. apply (f_equal (@rev _)) in Hrev. rewrite rev_involutive in Hrev. done.
  - rewrite lstrip_digit.
    + by rewrite <-Hrev, rev_involutive.
    + rewrite Forall_forall in Hl. apply Hl, list_elem_of_In, in_rev.
      rewrite Hrev. by left.
Qed.

Lemma length_chars s : length (String.list_ascii_of_string s) = String.length s.
Proof. induction s as [|c s IH]; simpl; [done|]. by rewrite IH. Qed.

Lemma int_literal_all_digits l :
  Forall (λ c, is_digit c = true) l → l ≠ [] →
  (Z.of_nat (length l) ≤ max_str_digits)%Z →
  int_literal l = Ok (foldl horner 0%Z l).
Proof.
  intros Hl Hne Hlen. unfold int_literal.
  rewrite filter_all by (by apply Forall_forall).
  rewrite bool_decide_eq_false_2 by lia.
  by apply int_digits_all_digits.
Qed.

Lemma int_literal_too_long l :
  Forall (λ c, is_digit c = true) l →
  (max_str_digits < Z.of_nat (length l))%Z →
  int_literal l = Raise ValueError.
Proof.
  intros Hl Hlen. unfold int_literal.
  rewrite filter_all by (by apply Forall_forall).
  by rewrite bool_decide_eq_true_2.
Qed.

Lemma py_int_unsigned s :
  let l := String.list_ascii_of_string s in
  Forall (λ c, is_digit c = true) l → l ≠ [] → py_int s = int_literal l.
Proof.
  intros l Hl Hne. unfold py_int. fold l. rewrite strip_all_digits by done.
  destruct l as [|c ds] eqn:El; [done|].
  assert (Hc : is_digit c = true) by (by inversion Hl).
  destruct (is_digit_not_sign c Hc) as (? & ? & _).
  by rewrite !bool_decide_eq_false_2 by done.
Qed.

Lemma py_int_all_digits s :
  let l := String.list_ascii_of_string s in
  Forall (λ c, is_digit c = true) l → l ≠ [] →
  (Z.of_nat (String.length s) ≤ max_str_digits)%Z →
  py_int s = Ok (foldl horner 0%Z l).
Proof.
  intros l Hl Hne Hlen. rewrite py_int_unsigned by done.
  apply int_literal_all_digits; [done..|]. unfold l. by rewrite length_chars.
Qed.

Lemma py_int_too_long s :
  Forall (λ c, is_digit c = true) (String.list_ascii_of_string s) →
  (max_str_digits < Z.of_nat (String.length s))%Z →
  py_int s = Raise ValueError.
Proof.
  intros Hl Hlen. rewrite py_int_unsigned; [|done|].
  - apply int_literal_too_long; [done|]. by rewrite length_chars.
  - intros Hnil. rewrite <-length_chars, Hnil in Hlen. by vm_compute in Hlen.
Qed.

Lemma list_ascii_of_string_app s t :
  String.list_ascii_of_string (s +:+ t)
  = String.list_ascii_of_string s ++ String.list_ascii_of_string t.
Proof. induction s as [|c s IH]; simpl; [done|]. by rewrite IH. Qed.

Lemma decimal_chars s N :
  decimal s N →
  let l := String.list_ascii_of_string s in
  Forall (λ c, is_digit c = true) l ∧ l ≠ [] ∧ N = foldl horner 0%Z l.
Proof.
  induction 1 as [c Hc|s N c Hs (IH1 & IH2 & IH3) Hc]; simpl.
  - repeat split; [by repeat constructor|done].
  - rewrite list_ascii_of_string_app. simpl. split_and!.
    + apply Forall_app. split; [done|by repeat constructor].
    + by intros [? _]%app_eq_nil.
    + rewrite foldl_app. simpl. unfold horner at 1. by rewrite <-IH3.
Qed.

(** [int] reads positional notation, up to the bound on the digits. *)
Lemma py_int_decimal s N :
  decimal s N → (Z.of_nat (String.length s) ≤ max_str_digits)%Z → py_int s = Ok N.
Proof.
  intros (Hl & Hne & ->)%decimal_chars Hlen. by apply py_int_all_digits.
Qed.

Lemma py_int_decimal_long s N :
  decimal s N → (max_str_digits < Z.of_nat (String.length s))%Z →
  py_int s = Raise ValueError.
Proof.
  intros (Hl & _ & _)%decimal_chars Hlen. by apply py_int_too_long.
Qed.

Lemma decimal_not_more_than_ten s N : decimal s N → s ≠ ">10".
Proof.
  intros (Hl & _ & _)%decimal_chars ->. simpl in Hl.
  inversion Hl as [|?? Hc _]. vm_compute in Hc. discriminate.
Qed.

Lemma bucket_decimal s N :
  decimal s N → (Z.of_nat (String.length s) ≤ max_str_digits)%Z → s ≠ "1" →
  bucket s = Ok N.
Proof.
  intros Hs Hlen Hne. unfold bucket.
  rewrite bool_decide_eq_false_2 by (by eapply decimal_not_more_than_ten).
  rewrite bool_decide_eq_false_2 by done.
  by apply py_int_decimal.
Qed.

Lemma bucket_decimal_long s N :
  decimal s N → (max_str_digits < Z.of_nat (String.length s))%Z →
  bucket s = Raise ValueError.
Proof.
  intros Hs Hlen. unfold bucket.
  rewrite bool_decide_eq_false_2 by (by eapply decimal_not_more_than_ten).
  rewrite bool_decide_eq_false_2 by (intros ->; by vm_compute in Hlen).
  by eapply py_int_decimal_long.
Qed.

Lemma bucket_quantity_expr s : quantity_expr s → is_Ok (bucket s).
Proof.
  intros [->|[->|(N & HN & Hlen)]]; [by eexists..|].
  destruct (decide (s = "1")) as [->|Hne]; [by eexists|].
  exists N. by apply bucket_decimal.
Qed.

(** ** The entries of the matched records *)

Lemma bucket_all_Ok ws es :
  bucket_all ws = Ok es →
  Forall2 (λ w e, Stock.offer_id e = Kod w ∧ bucket (Kolichestvo w) = Ok (Stock.stock e)) ws es.
Proof.
  revert es. induction ws as [|w ws IH]; intros es; simpl.
  - intros [= <-]. constructor.
  - destruct (bucket (Kolichestvo w)) as [stock|e] eqn:Hb; [|done].
    destruct (bucket_all ws) as [es'|e]; simpl; [|done].
    intros [= <-]. constructor; [done|by apply IH].
Qed.

Lemma bucket_all_ids ws es : bucket_all ws = Ok es → Stock.offer_id <$> es = Kod <$> ws.
Proof.
  intros H%bucket_all_Ok. induction H as [|w e ws es [Hid _] _ IH]; [done|].
  rewrite !fmap_cons. by f_equal.
Qed.

Lemma bucket_all_is_Ok ws :
  Forall (λ w, is_Ok (bucket (Kolichestvo w))) ws → is_Ok (bucket_all ws).
Proof.
  induction 1 as [|w ws [stock Hw] _ [es IH]]; simpl; [by eexists|].
  rewrite Hw, IH. by eexists.
Qed.

Lemma bucket_all_Raise ws e :
  bucket_all ws = Raise e →
  e = ValueError ∧ ∃ w, w ∈ ws ∧ bucket (Kolichestvo w) = Raise ValueError.
Proof.
  induction ws as [|w ws IH]; simpl; [done|].
  destruct (bucket (Kolichestvo w)) as [stock|e'] eqn:Hb.
  - destruct (bucket_all ws) as [es|e'']; simpl; [done|].
    intros [= ->]. destruct IH as [-> (w' & ? & ?)]; [done|].
    split; [done|]. exists w'. split; [by right|done].
  - intros [= ->]. pose proof (bucket_raise _ _ Hb) as ->.
    split; [done|]. exists w. split; [by left|done].
Qed.

Lemma bucket_all_elem_Raise ws w :
  w ∈ ws → bucket (Kolichestvo w) = Raise ValueError → bucket_all ws = Raise ValueError.
Proof.
  intros Hw Hb. destruct (bucket_all ws) as [es|e] eqn:Hall.
  - apply bucket_all_Ok in Hall.
    apply list_elem_of_lookup in Hw as [i Hi].
    destruct (Forall2_lookup_l _ _ _ _ _ Hall Hi) as (e & _ & _ & He). congruence.
  - by apply bucket_all_Raise in Hall as [-> _].
Qed.

Lemma matched_elem_of F U w :
  NoDup (Kod <$> F) → w ∈ F → Kod w ∈ U → w ∈ matched F U.
Proof.
  intros HF. rewrite matched_NoDup by done. intros ??.
  by apply list_elem_of_filter.
Qed.

(** ** The usual decimal notation *)

Lemma pretty_N_char_digit d :
  (d < 10)%N →
  is_digit (pretty_N_char d) = true ∧ digit_value (pretty_N_char d) = Z.of_N d.
Proof.
  intros Hd.
  assert (d = 0 ∨ d = 1 ∨ d = 2 ∨ d = 3 ∨ d = 4 ∨ d = 5 ∨ d = 6 ∨ d = 7
          ∨ d = 8 ∨ d = 9)%N as Hcases by lia.
  repeat (destruct Hcases as [->|Hcases]; [by split|]). by subst.
Qed.

Lemma append_cons c s t : String c s +:+ t = String c (s +:+ t).
Proof. reflexivity. Qed.

Lemma append_String_assoc s c t : (s +:+ String c EmptyString) +:+ t = s +:+ String c t.
Proof. induction s as [|c' s IH]; [done|]. by rewrite !append_cons, IH. Qed.

Lemma append_empty_r s : s +:+ EmptyString = s.
Proof. induction s as [|c s IH]; [done|]. by rewrite append_cons, IH. Qed.

Lemma pretty_N_go_decimal x :
  (0 < x)%N → ∃ D, (∀ s, pretty_N_go x s = D +:+ s) ∧ decimal D (Z.of_N x).
Proof.
  induction (N.lt_wf_0 x) as [x _ IH]. intros Hx.
  pose proof (N.div_mod x 10 ltac:(done)) as Hdm.
  pose proof (N.mod_upper_bound x 10 ltac:(done)) as Hmod.
  destruct (pretty_N_char_digit _ Hmod) as [Hdig Hval].
  destruct (decide (x `div` 10 = 0)%N) as [Hq|Hq].
  - exists (String (pretty_N_char (x `mod` 10)) EmptyString). split.
    + intros s. by rewrite pretty_N_go_step, Hq, pretty_N_go_0.
    + replace (Z.of_N x) with (digit_value (pretty_N_char (x `mod` 10))) by lia.
      by constructor.
  - destruct (IH (x `div` 10)%N) as (D & HD & Hdec); [by apply N.div_lt|lia|].
    exists (D +:+ String (pretty_N_char (x `mod` 10)) EmptyString). split.
    + intros s. by rewrite pretty_N_go_step, HD, append_String_assoc.
    + replace (Z.of_N x)
        with (10 * Z.of_N (x `div` 10) + digit_value (pretty_N_char (x `mod` 10)))%Z
        by lia.
      by constructor.
Qed.

(** The decimal string of a natural number reads as that number. *)
Lemma pretty_N_decimal (n : N) : decimal (pretty n) (Z.of_N n).
Proof.
  unfold pretty, pretty_N. case_decide as Hn.
  - subst n. by apply (decimal_digit "0"%char).
  - destruct (pretty_N_go_decimal n) as (D & HD & Hdec); [lia|].
    by rewrite HD, append_empty_r.
Qed.

Lemma string_of_list_ascii_app l1 l2 :
  String.string_of_list_ascii (l1 ++ l2)
  = String.string_of_list_ascii l1 +:+ String.string_of_list_ascii l2.
Proof. induction l1 as [|c l1 IH]; [done|]. simpl. by rewrite append_cons, IH. Qed.

(** A non-empty list of digits is the positional notation of the number
    [int] reads from it. *)
Lemma digits_decimal l :
  Forall (λ c, is_digit c = true) l → l ≠ [] →
  decimal (String.string_of_list_ascii l) (foldl horner 0%Z l).
Proof.
  induction l as [|c l IH] using rev_ind; [done|].
  intros [Hl Hc]%Forall_app _. rewrite Forall_singleton in Hc.
  rewrite string_of_list_ascii_app, foldl_app. cbn [foldl String.string_of_list_ascii].
  destruct (decide (l = [])) as [->|Hne].
  - replace (horner (foldl horner 0%Z []) c) with (digit_value c)
      by (unfold horner; simpl; lia).
    by apply (decimal_digit c).
  - unfold horner at 1. constructor; [by apply IH|done].
Qed.

(** The first record of the feed whose quantity is refused when the loop
    reaches it with its code still listed. *)
Lemma matched_first_Raise F U e :
  bucket_all (matched F U) = Raise e →
  ∃ F1 w F2 es1,
    F = F1 ++ (w :: F2)
    ∧ bucket_all (matched F1 U) = Ok es1
    ∧ Kod w ∈ remaining F1 U
    ∧ bucket (Kolichestvo w) = Raise e.
Proof.
  revert U. induction F as [|w0 F IH]; intros U; simpl; [done|].
  case_bool_decide as Hw0.
  - simpl. destruct (bucket (Kolichestvo w0)) as [stock|e'] eqn:Hb.
    + destruct (bucket_all (matched F _)) as [es|e''] eqn:Hall; simpl; [done|].
      intros [= ->].
      destruct (IH _ Hall) as (F1 & w & F2 & es1 & -> & Hes1 & Hw & Hbw).
      exists (w0 :: F1), w, F2, (Stock.mk (Kod w0) stock :: es1).
      cbn [matched remaining bucket_all app].
      rewrite bool_decide_eq_true_2 by done. cbn [bucket_all].
      by rewrite Hb, Hes1.
    + intros [= ->]. by exists [], w0, F, [].
  - intros Hall.
    destruct (IH _ Hall) as (F1 & w & F2 & es1 & -> & Hes1 & Hw & Hbw).
    exists (w0 :: F1), w, F2, es1.
    cbn [matched remaining app].
    by rewrite bool_decide_eq_false_2 by done.
Qed.

(** ** Reconciliation: [create_stocks] *)

Lemma create_stocks_Ok F U out U' :
  create_stocks F U = Ok (out, U') →
  ∃ es, bucket_all (matched F U) = Ok es
        ∧ out = es ++ zero_stocks U' ∧ U' = remaining F U.
Proof.
  rewrite create_stocks_spec. destruct (bucket_all _) as [es|e]; [|done].
  intros [= <- <-]. by exists es.
Qed.

Lemma zero_stocks_ids U : Stock.offer_id <$> zero_stocks U = U.
Proof.
  unfold zero_stocks. rewrite <-list_fmap_compose.
  induction U as [|u U IH]; [done|]. rewrite fmap_cons. simpl. by f_equal.
Qed.

Lemma create_stocks_ids F U out U' :
  create_stocks F U = Ok (out, U') →
  Stock.offer_id <$> out = (Kod <$> matched F U) ++ remaining F U.
Proof.
  intros (es & Hes & -> & ->)%create_stocks_Ok.
  by rewrite fmap_app, zero_stocks_ids, (bucket_all_ids _ _ Hes).
Qed.

Lemma market_stock_sku wh date (out : list Stock.t) :
  Market.Stock.sku <$> (market_stock wh date <$> out) = Stock.offer_id <$> out.
Proof. rewrite <-list_fmap_compose. done. Qed.

Lemma market_stock_count wh date e :
  market_count (market_stock wh date e) = Stock.stock e.
Proof. done. Qed.

(** C1 as claimed fails: [create_stocks] does not return on every feed.
    For the pairwise-distinct identifiers ["A"], a record of code "A" with
    the quantity "abc", or with a quantity of 4301 decimal digits, makes
    both variants raise [ValueError]: no list is returned. *)
Lemma create_stocks_not_total :
  NoDup ["A"]
  ∧ create_stocks Mock.bad_feed ["A"] = Raise ValueError
  ∧ create_stocks Mock.long_feed ["A"] = Raise ValueError
  ∧ Market.create_stocks "2024-01-01T00:00:00Z" Mock.bad_feed ["A"] "W1"
    = Raise ValueError
  ∧ Market.create_stocks "2024-01-01T00:00:00Z" Mock.long_feed ["A"] "W1"
    = Raise ValueError.
Proof.
  split; [by apply (bool_decide_unpack _)|].
  split_and!; vm_compute; reflexivity.
Qed.

(** C1, as the code has it.  For pairwise-distinct offer identifiers [U]:
    [create_stocks] returns when the quantity of every feed record whose
    code is in [U] is a quantity expression (">10", "1", or a decimal
    integer of no more digits than [int] reads); and whatever it returns
    has as many entries as [U], carries each identifier of [U] exactly
    once and no other, gives stock 0 to every identifier without a feed
    code, and has no entry for a feed record whose code is not in [U].
    The Market variant returns the same entries in its payload shape. *)
Theorem create_stocks_covers_universe (F : list watch) (U : list string) :
  NoDup U →
  ((∀ w, w ∈ F → Kod w ∈ U → quantity_expr (Kolichestvo w)) →
   is_Ok (create_stocks F U))
  ∧ ∀ out U', create_stocks F U = Ok (out, U') →
      length out = length U
      ∧ Stock.offer_id <$> out ≡ₚ U
      ∧ NoDup (Stock.offer_id <$> out)
      ∧ (∀ u, u ∈ Stock.offer_id <$> out ↔ u ∈ U)
      ∧ (∀ e, e ∈ out → Stock.offer_id e ∉ Kod <$> F → Stock.stock e = 0%Z)
      ∧ (∀ w, w ∈ F → Kod w ∉ U → Kod w ∉ Stock.offer_id <$> out)
      ∧ ∀ date wh, ∃ mout,
          Market.create_stocks date F U wh = Ok (mout, U')
          ∧ length mout = length U
          ∧ Market.Stock.sku <$> mout ≡ₚ U
          ∧ NoDup (Market.Stock.sku <$> mout)
          ∧ (∀ m, m ∈ mout → Market.Stock.sku m ∉ Kod <$> F → market_count m = 0%Z).
Proof.
  intros HU. split.
  - intros HF. rewrite create_stocks_spec.
    destruct (bucket_all_is_Ok (matched F U)) as [es ->]; [|by eexists].
    apply Forall_forall. intros w [Hw HwU]%matched_elem.
    apply bucket_quantity_expr. by apply HF.
  - intros out U' Hout.
    pose proof (create_stocks_ids _ _ _ _ Hout) as Hids.
    assert (Hperm : Stock.offer_id <$> out ≡ₚ U)
      by (rewrite Hids; apply matched_remaining_perm).
    assert (Hzero : ∀ e, e ∈ out → Stock.offer_id e ∉ Kod <$> F → Stock.stock e = 0%Z).
    { apply create_stocks_Ok in Hout as (es & Hes & -> & ->).
      intros e [He|He]%elem_of_app Hid.
      - exfalso. apply Hid.
        assert (Stock.offer_id e ∈ Kod <$> matched F U) as (w & -> & Hw)%list_elem_of_fmap.
        { rewrite <-(bucket_all_ids _ _ Hes). by apply list_elem_of_fmap_2. }
        apply list_elem_of_fmap_2. by apply matched_elem in Hw as [? _].
      - unfold zero_stocks in He. by apply list_elem_of_fmap in He as (u & -> & _). }
    split_and!.
    + by rewrite <-(length_fmap Stock.offer_id), Hperm.
    + done.
    + by rewrite Hperm.
    + intros u. by rewrite Hperm.
    + done.
    + intros w _ Hw. by rewrite Hperm.
    + intros date wh. exists (market_stock wh date <$> out).
      rewrite market_create_stocks_spec, Hout, market_stock_sku.
      split_and!; [done| |done|by rewrite Hperm|].
      * by rewrite length_fmap, <-(length_fmap Stock.offer_id), Hperm.
      * intros m (e & -> & He)%list_elem_of_fmap. simpl. by apply Hzero.
Qed.

Lemma create_stocks_covers_universe_witness :
  ∃ out U', create_stocks Mock.feed ["A"; "B"; "C"] = Ok (out, U')
            ∧ length out = 3 ∧ Stock.offer_id <$> out ≡ₚ ["A"; "B"; "C"].
Proof.
  assert (HU : NoDup ["A"; "B"; "C"]) by (by apply (bool_decide_unpack _)).
  destruct (create_stocks_covers_universe Mock.feed ["A"; "B"; "C"] HU) as [Hret Hprop].
  destruct Hret as [[out U'] Hout].
  { intros w Hw _.
    apply elem_of_cons in Hw as [->|Hw]; [by left|].
    apply elem_of_cons in Hw as [->|Hw]; [by right; left|].
    by apply elem_of_nil in Hw. }
  exists out, U'. destruct (Hprop out U' Hout) as (? & ? & _). done.
Defined.

(** The end-to-end scenario: identifiers A, B, C and a feed with A at
    ">10" and B at "1" give the stocks A 100, B 0, C 0, and leave C in the
    list; on the untouched list the prices are A "100" and B "50". *)
Theorem end_to_end_scenario :
  create_stocks Mock.feed ["A"; "B"; "C"]
  = Ok ([Stock.mk "A" 100; Stock.mk "B" 0; Stock.mk "C" 0], ["C"])
  ∧ Price.price <$> create_prices Mock.feed ["A"; "B"; "C"] = ["100"; "50"]
  ∧ Price.offer_id <$> create_prices Mock.feed ["A"; "B"; "C"] = ["A"; "B"].
Proof. split_and!; reflexivity. Qed.

(** The reconciliation of market.py is the one of seller.py, entry by
    entry in the Market payload shape, with the same list left to the
    caller and the same exceptions. *)
Theorem market_create_stocks_as_seller date (F : list watch) (U : list string) wh :
  Market.create_stocks date F U wh
  = match create_stocks F U with
    | Ok (out, U') => Ok (market_stock wh date <$> out, U')
    | Raise e => Raise e
    end.
Proof. apply market_create_stocks_spec. Qed.

(** C5, as the code has it.  The entries of the matched records come
    first, in the order of their records in the feed, then the zero
    entries of the identifiers left, in the order of [offer_ids]. *)
Theorem create_stocks_feed_order (F : list watch) (U : list string) out U' :
  create_stocks F U = Ok (out, U') →
  ∃ Fm, Fm `sublist_of` F
    ∧ U' `sublist_of` U
    ∧ Stock.offer_id <$> out = (Kod <$> Fm) ++ U'
    ∧ drop (length Fm) out = zero_stocks U'
    ∧ (NoDup U → U' = filter (λ u, u ∉ Kod <$> F) U)
    ∧ (NoDup (Kod <$> F) → Fm = filter (λ w, Kod w ∈ U) F)
    ∧ ∀ date wh,
        Market.create_stocks date F U wh = Ok (market_stock wh date <$> out, U').
Proof.
  intros Hout. exists (matched F U).
  pose proof (create_stocks_ids _ _ _ _ Hout) as Hids.
  pose proof Hout as (es & Hes & -> & ->)%create_stocks_Ok.
  split_and!.
  - apply matched_sublist.
  - apply remaining_sublist.
  - done.
  - apply bucket_all_Ok, Forall2_length in Hes. rewrite Hes.
    by rewrite drop_app_length.
  - apply remaining_NoDup.
  - apply matched_NoDup.
  - intros date wh. by rewrite market_create_stocks_spec, Hout.
Qed.

Lemma create_stocks_feed_order_witness :
  ∃ Fm, Fm `sublist_of` Mock.swapped_feed ∧ ["B"; "A"] = (Kod <$> Fm) ++ [].
Proof.
  destruct (create_stocks_feed_order Mock.swapped_feed ["A"; "B"]
              [Stock.mk "B" 5; Stock.mk "A" 3] [] eq_refl)
    as (Fm & HFm & _ & Hids & _).
  by exists Fm.
Defined.

(** C5 as claimed fails: with the feed listing B before A and the
    identifiers listing A before B, both matched, the output lists B
    first, where the claimed order has A first. *)
Lemma create_stocks_not_universe_order :
  ∃ out U',
    create_stocks Mock.swapped_feed ["A"; "B"] = Ok (out, U')
    ∧ Stock.offer_id <$> out = ["B"; "A"]
    ∧ Stock.offer_id <$> out
      ≠ filter (λ u, u ∈ Kod <$> Mock.swapped_feed) ["A"; "B"]
        ++ filter (λ u, u ∉ Kod <$> Mock.swapped_feed) ["A"; "B"].
Proof.
  exists [Stock.mk "B" 5; Stock.mk "A" 3], [].
  split; [done|]. split; [done|]. vm_compute. discriminate.
Qed.

(** C6 as claimed fails: a matched record with the quantity "abc" makes
    both variants raise [ValueError]; no list is returned. *)
Lemma create_stocks_raises_on_bad_quantity :
  create_stocks Mock.bad_feed ["A"] = Raise ValueError
  ∧ Market.create_stocks "2024-01-01T00:00:00Z" Mock.bad_feed ["A"] "W1"
    = Raise ValueError.
Proof. split; reflexivity. Qed.

(** C6, as the code has it, for quantity cells that are strings.  The
    quantity policy is partial: it returns on ">10", on "1" and on what
    [int] accepts, and raises [ValueError] on anything else.
    [create_stocks] returns when the quantity of every record whose code
    is listed is accepted.  It raises nothing but [ValueError], and
    exactly at the first record whose code is still in the list when the
    loop reaches it and whose quantity is refused: the feed before that
    record is reconciled normally, and the record's code is in the list
    this leaves.  A record whose code is not in the list when the loop
    reaches it is not parsed: the call is the call on the feed without it,
    whatever its quantity.  On a feed of distinct codes any listed record
    with a refused quantity makes the call raise.  With the identifiers A,
    B: the feed A "5", A "abc" returns, its second record being skipped;
    the feed A "5", B "abc", A "7" raises.  Both variants behave alike. *)
Theorem create_stocks_returns_when_quantities_parse (F : list watch) (U : list string) :
  (∀ s, is_Ok (bucket s) ↔ s = ">10" ∨ s = "1" ∨ is_Ok (py_int s))
  ∧ (∀ s e, bucket s = Raise e → e = ValueError)
  ∧ ((∀ w, w ∈ F → Kod w ∈ U → is_Ok (bucket (Kolichestvo w))) →
     is_Ok (create_stocks F U))
  ∧ (∀ e, create_stocks F U = Raise e →
       e = ValueError
       ∧ ∃ F1 w F2 out1 U1,
           F = F1 ++ (w :: F2)
           ∧ create_stocks F1 U = Ok (out1, U1)
           ∧ Kod w ∈ U1
           ∧ Kod w ∈ U
           ∧ bucket (Kolichestvo w) = Raise ValueError)
  ∧ (∀ F1 w F2 out1 U1,
       F = F1 ++ (w :: F2) →
       create_stocks F1 U = Ok (out1, U1) →
       Kod w ∈ U1 →
       bucket (Kolichestvo w) = Raise ValueError →
       create_stocks F U = Raise ValueError)
  ∧ (∀ F1 w F2 out1 U1,
       F = F1 ++ (w :: F2) →
       create_stocks F1 U = Ok (out1, U1) →
       Kod w ∉ U1 →
       create_stocks F U = create_stocks (F1 ++ F2) U)
  ∧ (NoDup (Kod <$> F) →
     ∀ w, w ∈ F → Kod w ∈ U → bucket (Kolichestvo w) = Raise ValueError →
          create_stocks F U = Raise ValueError)
  ∧ create_stocks Mock.repeated_feed ["A"; "B"]
    = Ok ([Stock.mk "A" 5; Stock.mk "B" 0], ["B"])
  ∧ create_stocks Mock.interleaved_feed ["A"; "B"] = Raise ValueError
  ∧ ∀ date wh e,
      Market.create_stocks date F U wh = Raise e ↔ create_stocks F U = Raise e.
Proof.
  split_and!; [| | | | | | |reflexivity|reflexivity|].
  - intros s. unfold bucket. repeat case_bool_decide; subst.
    + split; [by left|by eexists].
    + split; [by right; left|by eexists].
    + split; [by right; right|]. by intros [?|[?|?]].
  - apply bucket_raise.
  - intros HF. rewrite create_stocks_spec.
    destruct (bucket_all_is_Ok (matched F U)) as [es ->]; [|by eexists].
    apply Forall_forall. intros w [Hw HwU]%matched_elem. by apply HF.
  - intros e. rewrite create_stocks_spec.
    destruct (bucket_all _) as [es|e'] eqn:Hall; [done|].
    intros [= ->].
    destruct (matched_first_Raise _ _ _ Hall) as (F1 & w & F2 & es1 & HF & Hes1 & Hw & Hb).
    pose proof (bucket_raise _ _ Hb) as ->. split; [done|].
    exists F1, w, F2, (es1 ++ zero_stocks (remaining F1 U)), (remaining F1 U).
    split_and!; [done| |done| |done].
    + by rewrite create_stocks_spec, Hes1.
    + by apply (sublist_subseteq _ _ (remaining_sublist F1 U)).
  - intros F1 w F2 out1 U1 -> (es1 & _ & _ & ->)%create_stocks_Ok Hw Hb.
    rewrite create_stocks_spec.
    rewrite (bucket_all_elem_Raise _ w); [done| |done].
    rewrite (proj1 (matched_app _ _ _)). apply elem_of_app. right.
    cbn [matched]. rewrite bool_decide_eq_true_2 by done. by left.
  - intros F1 w F2 out1 U1 -> (es1 & _ & _ & ->)%create_stocks_Ok Hw.
    rewrite !create_stocks_spec.
    destruct (matched_app F1 (w :: F2) U) as [-> ->].
    destruct (matched_app F1 F2 U) as [-> ->].
    cbn [matched remaining]. by rewrite bool_decide_eq_false_2 by done.
  - intros HF w Hw HwU Hb. rewrite create_stocks_spec.
    by rewrite (bucket_all_elem_Raise _ w) by (by try apply matched_elem_of).
  - intros date wh e. rewrite market_create_stocks_spec.
    destruct (create_stocks F U) as [[out U']|e']; [done|].
    split; congruence.
Qed.

(** C7 as claimed fails: a quantity of 4301 digits is a decimal
    representation of a non-negative integer, and is not "1"; the stock
    policy raises [ValueError] on it, so no stock is emitted for a matched
    record that carries it. *)
Lemma bucket_refuses_long_decimal :
  (∃ N, decimal Mock.long_quantity N)
  ∧ Mock.long_quantity ≠ "1"
  ∧ bucket Mock.long_quantity = Raise ValueError
  ∧ create_stocks Mock.long_feed ["A"] = Raise ValueError.
Proof.
  split_and!.
  - eexists. apply digits_decimal; [by apply Forall_replicate|done].
  - done.
  - vm_compute. reflexivity.
  - vm_compute. reflexivity.
Qed.

(** C7, as the code has it.  The stock of a matched record is 100 for the
    quantity ">10", 0 for "1", and [N] for any other string that reads as
    the non-negative integer [N] in base ten and has no more digits than
    [int] reads; on a longer one the policy raises [ValueError].  The
    output of [create_stocks] is the entries of the matched records, each
    with the stock of its quantity, followed by the zero entries. *)
Theorem create_stocks_bucket_values :
  bucket ">10" = Ok 100%Z
  ∧ bucket "1" = Ok 0%Z
  ∧ bucket "7" = Ok 7%Z
  ∧ bucket "0" = Ok 0%Z
  ∧ (∀ s N, decimal s N → (Z.of_nat (String.length s) ≤ max_str_digits)%Z →
            s ≠ "1" → bucket s = Ok N)
  ∧ (∀ s N, decimal s N → (max_str_digits < Z.of_nat (String.length s))%Z →
            bucket s = Raise ValueError)
  ∧ (∀ n : N, n ≠ 1%N →
              (Z.of_nat (String.length (pretty n)) ≤ max_str_digits)%Z →
              bucket (pretty n) = Ok (Z.of_N n))
  ∧ ∀ (F : list watch) (U : list string) out U',
      create_stocks F U = Ok (out, U') →
      ∃ es,
        out = es ++ zero_stocks (remaining F U)
        ∧ Forall2 (λ w e,
            Stock.offer_id e = Kod w
            ∧ bucket (Kolichestvo w) = Ok (Stock.stock e)
            ∧ (Kolichestvo w = ">10" → Stock.stock e = 100%Z)
            ∧ (Kolichestvo w = "1" → Stock.stock e = 0%Z)
            ∧ (∀ N, decimal (Kolichestvo w) N → Kolichestvo w ≠ "1" →
                    Stock.stock e = N))
          (matched F U) es
        ∧ ∀ date wh,
            Market.create_stocks date F U wh = Ok (market_stock wh date <$> out, U')
            ∧ market_count <$> (market_stock wh date <$> out) = Stock.stock <$> out.
Proof.
  split_and!; try reflexivity.
  - apply bucket_decimal.
  - apply bucket_decimal_long.
  - intros n Hn Hlen. apply bucket_decimal; [apply pretty_N_decimal|done|].
    intros H1. apply Hn. by apply (inj pretty).
  - intros F U out U' Hout.
    pose proof Hout as (es & Hes & -> & ->)%create_stocks_Ok.
    exists es. split_and!; [done| |].
    + eapply Forall2_impl; [by apply bucket_all_Ok|].
      intros w e [Hid Hb]. simpl in *. split_and!; try done.
      * intros Hq. rewrite Hq in Hb. by injection Hb.
      * intros Hq. rewrite Hq in Hb. by injection Hb.
      * intros N HN Hne.
        destruct (decide (Z.of_nat (String.length (Kolichestvo w)) ≤ max_str_digits)%Z)
          as [Hlen|Hlen].
        -- rewrite (bucket_decimal _ _ HN Hlen Hne) in Hb. by injection Hb.
        -- rewrite (bucket_decimal_long _ _ HN) in Hb by lia. done.
    + intros date wh. split; [by rewrite market_create_stocks_spec, Hout|].
      by rewrite <-list_fmap_compose.
Qed.

(** C3 as claimed fails when an identifier is listed twice: one feed
    record removes one occurrence, and the list the call leaves still
    holds an identifier that had a matching feed record. *)
Lemma create_stocks_keeps_duplicate :
  ∃ out U',
    create_stocks Mock.one_record ["A"; "A"] = Ok (out, U')
    ∧ "A" ∈ U' ∧ "A" ∈ Kod <$> Mock.one_record.
Proof.
  exists [Stock.mk "A" 5; Stock.mk "A" 0], ["A"].
  split; [done|]. split; by left.
Qed.

Lemma create_stocks_returns_when_quantities_parse_witness :
  is_Ok (create_stocks Mock.feed ["A"; "B"; "C"]).
Proof.
  destruct (create_stocks_returns_when_quantities_parse Mock.feed ["A"; "B"; "C"])
    as (_ & _ & Hret & _).
  apply Hret. intros w Hw _. apply bucket_quantity_expr.
  apply elem_of_cons in Hw as [->|Hw]; [by left|].
  apply elem_of_cons in Hw as [->|Hw]; [by right; left|].
  by apply elem_of_nil in Hw.
Defined.

Lemma create_stocks_bucket_values_witness :
  ∃ es, [Stock.mk "A" 100; Stock.mk "B" 0; Stock.mk "C" 0]
        = es ++ zero_stocks (remaining Mock.feed ["A"; "B"; "C"]).
Proof.
  destruct create_stocks_bucket_values as (_ & _ & _ & _ & _ & _ & _ & Hout).
  destruct (Hout Mock.feed ["A"; "B"; "C"]
              [Stock.mk "A" 100; Stock.mk "B" 0; Stock.mk "C" 0] ["C"] eq_refl)
    as (es & Hes & _).
  by exists es.
Defined.

(** ** Price normalisation *)

Lemma py_split_first s :
  default EmptyString (py_split "."%char s !! 0%nat) = before_first_dot s.
Proof.
  induction s as [|c s IH]; simpl; [done|].
  case_bool_decide; [done|].
  destruct (py_split "."%char s) as [|piece pieces]; simpl in *; by rewrite <-IH.
Qed.

Lemma re_sub_non_digits_filter s :
  re_sub_non_digits s
  = String.string_of_list_ascii
      (filter (λ c, is_digit c = true) (String.list_ascii_of_string s)).
Proof.
  induction s as [|c s IH]; simpl; [done|].
  rewrite filter_cons. destruct (is_digit c) eqn:Hc.
  - rewrite decide_True by done. simpl. by rewrite IH.
  - rewrite decide_False by done. done.
Qed.

Lemma before_first_dot_app a b :
  "."%char ∉ String.list_ascii_of_string a →
  before_first_dot (a +:+ String "."%char b) = a.
Proof.
  induction a as [|c a IH]; simpl.
  - done.
  - rewrite not_elem_of_cons. intros [Hc Ha].
    rewrite bool_decide_eq_false_2 by done. by rewrite IH.
Qed.

Lemma before_first_dot_no_dot a :
  "."%char ∉ String.list_ascii_of_string a → before_first_dot a = a.
Proof.
  induction a as [|c a IH]; simpl; [done|].
  rewrite not_elem_of_cons. intros [Hc Ha].
  rewrite bool_decide_eq_false_2 by done. by rewrite IH.
Qed.

(** C8. [price_conversion] keeps what stands before the first "." and of
    that only the digits; what follows the first "." never reaches the
    result. *)
Theorem price_conversion_normalizes :
  (∀ s, price_conversion s = normalize_price s)
  ∧ price_conversion "5'990.00 руб." = "5990"
  ∧ price_conversion "1234" = "1234"
  ∧ (∀ a b, "."%char ∉ String.list_ascii_of_string a →
            price_conversion (a +:+ String "."%char b) = price_conversion a)
  ∧ ∀ s, Forall (λ c, is_digit c = true)
           (String.list_ascii_of_string (price_conversion s)).
Proof.
  assert (Hspec : ∀ s, price_conversion s = normalize_price s).
  { intros s. unfold price_conversion, normalize_price.
    by rewrite py_split_first, re_sub_non_digits_filter. }
  split_and!; [done|reflexivity|reflexivity| |].
  - intros a b Ha. rewrite !Hspec. unfold normalize_price.
    by rewrite before_first_dot_app, before_first_dot_no_dot.
  - intros s. rewrite Hspec. unfold normalize_price.
    rewrite String.list_ascii_of_string_of_list_ascii.
    apply Forall_forall. by intros c [Hc _]%list_elem_of_filter.
Qed.

(** ** Batching *)

Section divide.
Context {A : Type}.
Implicit Types (lst : list A) (k : nat).

Lemma concat_slices lst k c :
  concat ((λ i, py_slice lst i (i + k)) <$> ((λ j, j * k) <$> seq 0 c))
  = take (c * k) lst.
Proof.
  induction c as [|c IH]; [done|].
  rewrite seq_S, !fmap_app, concat_app, IH. simpl.
  unfold py_slice. rewrite app_nil_r.
  replace (c * k + k - c * k) with k by lia.
  rewrite take_take_drop. f_equal. lia.
Qed.

Lemma chunk_count_covers n k : 0 < k → n ≤ (n + k - 1) / k * k.
Proof.
  intros Hk. pose proof (Nat.div_mod_eq (n + k - 1) k).
  pose proof (Nat.mod_upper_bound (n + k - 1) k). lia.
Qed.

Lemma chunk_count_tight n k : 0 < k → 0 < n → ((n + k - 1) / k - 1) * k < n.
Proof.
  intros Hk Hn. pose proof (Nat.div_mod_eq (n + k - 1) k).
  pose proof (Nat.mod_upper_bound (n + k - 1) k).
  assert (0 < (n + k - 1) / k) by (apply Nat.div_str_pos; lia).
  nia.
Qed.

End divide.

Lemma divide_unfold {A} (lst : list A) (n : Z) :
  (0 < n)%Z →
  divide lst n
  = Ok ((λ i, py_slice lst i (i + Z.to_nat n))
          <$> ((λ j, j * Z.to_nat n) <$> seq 0 ((length lst + Z.to_nat n - 1) / Z.to_nat n))).
Proof.
  intros Hn. unfold divide, py_range0.
  by rewrite !bool_decide_eq_false_2 by lia.
Qed.

Lemma divide_positive {A} (lst : list A) n :
  (0 < n)%Z → ∃ chunks, divide lst n = Ok chunks ∧ (lst = [] → chunks = []).
Proof.
  intros Hn. rewrite divide_unfold by done. eexists. split; [done|].
  intros ->. simpl. rewrite Nat.div_small by lia. done.
Qed.

(** C9. For a positive [n], the chunks of [divide lst n] concatenate to
    [lst]; each holds between 1 and [n] elements, and exactly [n] unless
    it is the last; the [i]-th chunk is the slice starting at [i * n];
    the empty list has no chunk; and the call is a function of its
    inputs. *)
Theorem divide_partitions {A} (lst : list A) (n : Z) :
  (0 < n)%Z →
  ∃ chunks,
    divide lst n = Ok chunks
    ∧ concat chunks = lst
    ∧ (∀ i chunk, chunks !! i = Some chunk →
         chunk = take (Z.to_nat n) (drop (i * Z.to_nat n) lst)
         ∧ 1 ≤ length chunk ≤ Z.to_nat n
         ∧ (i + 1 < length chunks → length chunk = Z.to_nat n))
    ∧ (lst = [] → chunks = [])
    ∧ ∀ chunks', divide lst n = Ok chunks' → chunks' = chunks.
Proof.
  intros Hn. rewrite divide_unfold by done.
  set (k := Z.to_nat n). assert (Hk : 0 < k) by (unfold k; lia).
  set (c := (length lst + k - 1) / k).
  eexists. split; [reflexivity|]. split_and!.
  - rewrite concat_slices. apply take_ge. by apply chunk_count_covers.
  - intros i chunk. rewrite !length_fmap, length_seq, !list_lookup_fmap.
    destruct (seq 0 c !! i) as [j|] eqn:Hj; simpl; [|done].
    apply lookup_seq in Hj as [-> Hi]. simpl. intros [= <-].
    unfold py_slice. replace (i * k + k - i * k) with k by lia.
    split; [done|]. rewrite length_take, length_drop.
    assert (0 < length lst).
    { destruct lst; simpl; [|lia]. subst c. simpl in Hi.
      rewrite Nat.div_small in Hi by lia. lia. }
    pose proof (chunk_count_tight (length lst) k Hk ltac:(done)) as Ht.
    fold c in Ht. split; [nia|]. intros Hlast. nia.
  - intros ->. subst c. simpl. rewrite Nat.div_small by lia. done.
  - by intros chunks' [= <-].
Qed.

Lemma divide_partitions_witness :
  ∃ chunks, divide [1; 2; 3; 4; 5] 2 = Ok chunks ∧ concat chunks = [1; 2; 3; 4; 5].
Proof.
  destruct (divide_partitions [1; 2; 3; 4; 5] 2 eq_refl) as (chunks & Hd & Hc & _).
  by exists chunks.
Defined.

End reconciliation.

(** ** Running [io] code *)

Lemma io_bind_Ok {W A B} (m : io W A) (f : A → io W B) w a w' :
  m w = Some (Ok a, w') → (m ≫= f) w = f a w'.
Proof. unfold mbind, io_bind. by intros ->. Qed.

Lemma io_bind_Raise {W A B} (m : io W A) (f : A → io W B) w e w' :
  m w = Some (Raise e, w') → (m ≫= f) w = Some (Raise e, w').
Proof. unfold mbind, io_bind. by intros ->. Qed.

(** One step of a sequence of [io] calls whose result is known. *)
Ltac io_step tac := erewrite io_bind_Ok by tac; cbv beta iota zeta.

Lemma handlers_prints {W} (print : printed → W → W) e w :
  ∃ m, handlers print e w = Some (Ok tt, print m w).
Proof. destruct e; by eexists. Qed.

(** ** The pagers *)

Section seller_pager.
Context {W : Type}.
Variable get_product_list : string → W → result Seller.product_page * W.

Lemma seller_loop_run w last_id acc pages w' :
  seller_paging get_product_list w last_id acc pages w' →
  ∀ fuel, length pages ≤ fuel →
    Seller.get_offer_ids_loop get_product_list fuel last_id acc w
    = Some (Ok (acc ++ concat (Seller.items <$> pages)), w').
Proof.
  induction 1 as [w last_id acc p w' Hget Htot
                 |w last_id acc p w' ps w'' Hget Htot _ IH];
    intros [|fuel] Hfuel; simpl in Hfuel; try lia; simpl.
  - erewrite io_bind_Ok by (unfold call; by rewrite Hget).
    rewrite bool_decide_eq_true_2 by done. by rewrite app_nil_r.
  - erewrite io_bind_Ok by (unfold call; by rewrite Hget).
    rewrite bool_decide_eq_false_2 by done.
    rewrite IH by lia. by rewrite <-app_assoc.
Qed.

Lemma seller_loop_inv fuel w last_id acc l w' :
  Seller.get_offer_ids_loop get_product_list fuel last_id acc w = Some (Ok l, w') →
  ∃ pages, seller_paging get_product_list w last_id acc pages w'
           ∧ l = acc ++ concat (Seller.items <$> pages).
Proof.
  revert w last_id acc. induction fuel as [|fuel IH]; intros w last_id acc; [done|].
  simpl. unfold mbind at 1, io_bind at 1, call.
  destruct (get_product_list last_id w) as [[p|e] w1] eqn:Hget; [|done].
  case_bool_decide as Htot.
  - intros [= <- <-]. exists [p]. split; [by constructor|].
    simpl. by rewrite app_nil_r.
  - intros (ps & Hps & ->)%IH. exists (p :: ps).
    split; [by econstructor|]. simpl. by rewrite <-app_assoc.
Qed.

End seller_pager.

Section market_pager.
Context {W : Type}.
Variable get_product_list : string → string → W → result Market.product_page * W.

Lemma market_loop_run campaign w page acc pages w' :
  market_paging get_product_list campaign w page pages w' →
  ∀ fuel, length pages ≤ fuel →
    Market.get_offer_ids_loop get_product_list fuel campaign page acc w
    = Some (Ok (acc ++ concat (Market.offerMappingEntries <$> pages)), w').
Proof.
  intros Hrun. revert acc.
  induction Hrun as [w page p w' Hget Htok
                    |w page p w' ps w'' Hget Htok _ IH];
    intros acc [|fuel] Hfuel; simpl in Hfuel; try lia; simpl.
  - erewrite io_bind_Ok by (unfold call; by rewrite Hget).
    rewrite Htok. by rewrite app_nil_r.
  - erewrite io_bind_Ok by (unfold call; by rewrite Hget).
    rewrite Htok. rewrite IH by lia. by rewrite <-app_assoc.
Qed.

Lemma market_loop_inv fuel campaign w page acc l w' :
  Market.get_offer_ids_loop get_product_list fuel campaign page acc w = Some (Ok l, w') →
  ∃ pages, market_paging get_product_list campaign w page pages w'
           ∧ l = acc ++ concat (Market.offerMappingEntries <$> pages).
Proof.
  revert w page acc. induction fuel as [|fuel IH]; intros w page acc; [done|].
  simpl. unfold mbind at 1, io_bind at 1, call.
  destruct (get_product_list page campaign w) as [[p|e] w1] eqn:Hget; [|done].
  destruct (Market.truthy _) eqn:Htok.
  - intros (ps & Hps & ->)%IH. exists (p :: ps).
    split; [by econstructor|]. simpl. by rewrite <-app_assoc.
  - intros [= <- <-]. exists [p]. split; [by constructor|].
    simpl. by rewrite app_nil_r.
Qed.

End market_pager.

(** C10. Each pager returns once its own stopping test holds: the Seller
    pager when a page reports a total equal to the number of products
    collected so far, the Market pager when a page carries an empty or
    absent next-page token.  For a run of requests that reaches such a
    page, every amount of fuel from the number of pages on gives the
    identifiers of all the pages requested. *)
Theorem pagers_terminate :
  (∀ W (get_product_list : string → W → result Seller.product_page * W) w pages w',
     seller_paging get_product_list w "" [] pages w' →
     ∀ fuel, length pages ≤ fuel →
       Seller.get_offer_ids get_product_list fuel w
       = Some (Ok (seller_page_ids pages), w'))
  ∧ (∀ W (get_product_list : string → string → W → result Market.product_page * W)
       campaign_id w pages w',
     market_paging get_product_list campaign_id w "" pages w' →
     ∀ fuel, length pages ≤ fuel →
       Market.get_offer_ids get_product_list fuel campaign_id w
       = Some (Ok (market_page_ids pages), w')).
Proof.
  split.
  - intros W get w pages w' Hrun fuel Hfuel. unfold Seller.get_offer_ids.
    erewrite io_bind_Ok by (by eapply seller_loop_run). done.
  - intros W get campaign w pages w' Hrun fuel Hfuel. unfold Market.get_offer_ids.
    erewrite io_bind_Ok by (by eapply market_loop_run). done.
Qed.

Lemma pagers_terminate_witness :
  Seller.get_offer_ids Mock.two_pages 2 tt = Some (Ok ["A"; "B"; "C"], tt)
  ∧ Market.get_offer_ids Mock.three_pages 3 "FBS" tt
    = Some (Ok ["A"; "B"; "C"; "A"], tt).
Proof.
  destruct pagers_terminate as [Hseller Hmarket]. split.
  - refine (Hseller unit Mock.two_pages tt Mock.two_pages_answers tt _ 2 (le_n _)).
    eapply seller_paging_more; [reflexivity|done|].
    eapply seller_paging_last; [reflexivity|done].
  - refine (Hmarket unit Mock.three_pages "FBS" tt Mock.three_pages_answers tt _ 3 (le_n _)).
    eapply market_paging_more; [reflexivity|done|].
    eapply market_paging_more; [reflexivity|done|].
    eapply market_paging_last; [reflexivity|done].
Defined.

(** C2 as claimed fails: a transport of three pages and a terminal empty
    cursor whose third page repeats "A" gives a list holding "A" twice. *)
Lemma get_offer_ids_repeats_identifier :
  Market.get_offer_ids Mock.three_pages 3 "FBS" tt
  = Some (Ok ["A"; "B"; "C"; "A"], tt)
  ∧ ¬ NoDup ["A"; "B"; "C"; "A"].
Proof.
  split; [reflexivity|].
  intros [Hin _]%NoDup_cons. apply Hin. do 2 right. by left.
Qed.

(** C2, as the code has it.  What a pager returns is the identifiers of the
    pages it requested, in page order, each as many times as the pages
    list it. *)
Theorem get_offer_ids_concatenates_pages :
  (∀ W (get_product_list : string → W → result Seller.product_page * W) fuel w l w',
     Seller.get_offer_ids get_product_list fuel w = Some (Ok l, w') →
     ∃ pages, seller_paging get_product_list w "" [] pages w'
              ∧ l = seller_page_ids pages
              ∧ ∀ x, occurrences x l
                     = sum_list ((λ p, occurrences x (Seller.Product.offer_id <$> Seller.items p))
                                   <$> pages))
  ∧ (∀ W (get_product_list : string → string → W → result Market.product_page * W)
       fuel campaign_id w l w',
     Market.get_offer_ids get_product_list fuel campaign_id w = Some (Ok l, w') →
     ∃ pages, market_paging get_product_list campaign_id w "" pages w'
              ∧ l = market_page_ids pages
              ∧ ∀ x, occurrences x l
                     = sum_list ((λ p, occurrences x
                                         ((λ product, Market.shopSku (Market.offer product))
                                            <$> Market.offerMappingEntries p))
                                   <$> pages)).
Proof.
  assert (Hocc : ∀ {A} (f : A → string) x (ls : list (list A)),
             occurrences x (f <$> concat ls)
             = sum_list ((λ l, occurrences x (f <$> l)) <$> ls)).
  { intros A f x ls. induction ls as [|l ls IH]; [done|].
    simpl. rewrite fmap_app. unfold occurrences at 1.
    rewrite filter_app, length_app. fold (occurrences x (f <$> l)).
    fold (occurrences x (f <$> concat ls)). by rewrite IH. }
  split.
  - intros W get fuel w l w'. unfold Seller.get_offer_ids.
    unfold mbind at 1, io_bind at 1.
    destruct (Seller.get_offer_ids_loop _ _ _ _ _) as [[[pl|e] w1]|] eqn:Hloop; try done.
    intros [= <- <-]. apply seller_loop_inv in Hloop as (pages & Hrun & ->).
    exists pages. split_and!; [done..|].
    intros x. simpl. rewrite Hocc, <-list_fmap_compose. done.
  - intros W get fuel campaign w l w'. unfold Market.get_offer_ids.
    unfold mbind at 1, io_bind at 1.
    destruct (Market.get_offer_ids_loop _ _ _ _ _ _) as [[[pl|e] w1]|] eqn:Hloop; try done.
    intros [= <- <-]. apply market_loop_inv in Hloop as (pages & Hrun & ->).
    exists pages. split_and!; [done..|].
    intros x. simpl. rewrite Hocc, <-list_fmap_compose. done.
Qed.

Lemma get_offer_ids_concatenates_pages_witness :
  ∃ pages, seller_paging Mock.two_pages tt "" [] pages tt
           ∧ ["A"; "B"; "C"] = seller_page_ids pages.
Proof.
  destruct get_offer_ids_concatenates_pages as [Hseller _].
  destruct (Hseller unit Mock.two_pages 2 tt ["A"; "B"; "C"] tt eq_refl)
    as (pages & Hrun & Hids & _).
  by exists pages.
Defined.

(** ** The two [main] functions *)

Lemma create_prices_spec F U :
  Seller.create_prices F U = price_entry <$> filter (λ w, Seller.Kod w ∈ U) F.
Proof.
  unfold Seller.create_prices.
  enough (∀ acc,
    foldl (λ prices watch,
             if bool_decide (Seller.Kod watch ∈ U)
             then prices ++ [Seller.Price.mk "UNKNOWN" "RUB" (Seller.Kod watch) "0"
                               (Seller.price_conversion (Seller.Tsena watch))]
             else prices) acc F
    = acc ++ (price_entry <$> filter (λ w, Seller.Kod w ∈ U) F)) as H by apply H.
  induction F as [|w F IH]; intros acc; simpl.
  - by rewrite app_nil_r.
  - rewrite IH, filter_cons. case_bool_decide.
    + rewrite decide_True by done. by rewrite fmap_cons, <-app_assoc.
    + by rewrite decide_False by done.
Qed.

Lemma create_prices_after_create_stocks F U out U' :
  NoDup U → Seller.create_stocks F U = Ok (out, U') → Seller.create_prices F U' = [].
Proof.
  intros HU (es & _ & _ & ->)%create_stocks_Ok.
  rewrite create_prices_spec, remaining_NoDup by done.
  rewrite (filter_ext_elem _ (λ _, False)).
  - by induction F.
  - intros w Hw. split; [|done].
    intros [Hcode _]%list_elem_of_filter. apply Hcode. by apply list_elem_of_fmap_2.
Qed.

Section seller_main.
Context {W : Type}.
Variable get_product_list : string → W → result Seller.product_page * W.
Variable update_price : list Seller.Price.t → W → result unit * W.
Variable update_stocks : list Seller.Stock.t → W → result unit * W.
Variable download_stock : W → result (list Seller.watch) * W.
Variable print : printed → W → W.

Lemma seller_main_run fuel w0 U w1 F w2 out U' chunks w3 :
  Seller.get_offer_ids get_product_list fuel w0 = Some (Ok U, w1) →
  download_stock w1 = (Ok F, w2) →
  Seller.create_stocks F U = Ok (out, U') →
  Seller.divide out 100 = Ok chunks →
  for_each (λ some_stock, call (update_stocks some_stock)) chunks w2 = Some (Ok tt, w3) →
  ∃ price_chunks,
    Seller.divide (Seller.create_prices F U') 900 = Ok price_chunks
    ∧ Seller.main get_product_list update_price update_stocks download_stock print fuel w0
      = try_except
          (for_each (λ some_price, call (update_price some_price)) price_chunks)
          (handlers print) w3
    ∧ (NoDup U → Seller.main get_product_list update_price update_stocks download_stock print fuel w0 = Some (Ok tt, w3)).
Proof.
  intros Hids Hfeed Hstocks Hchunks Hsend.
  destruct (divide_positive (Seller.create_prices F U') 900) as (pc & Hpc & Hnil); [done|].
  exists pc. split; [done|].
  assert (Hmain : Seller.main get_product_list update_price update_stocks download_stock print fuel w0
          = try_except (for_each (λ some_price, call (update_price some_price)) pc)
              (handlers print) w3).
  { unfold Seller.main, try_except.
    io_step ltac:(eassumption).
    io_step ltac:(unfold call; by rewrite Hfeed).
    io_step ltac:(unfold lift; by rewrite Hstocks).
    io_step ltac:(unfold lift; by rewrite Hchunks).
    io_step ltac:(eassumption).
    io_step ltac:(unfold lift; by rewrite Hpc).
    done. }
  split; [done|].
  intros HU. rewrite Hmain.
  rewrite Hnil by (by eapply create_prices_after_create_stocks). done.
Qed.

End seller_main.

(** C3, as the code has it.  [create_stocks] leaves in the caller's list
    what it did not match: going through the feed in order, every record
    whose code is still listed removes the first occurrence of that code
    (the list is cut at the first element equal to the code, and what
    stands before and after it is kept), so an identifier listed [k] times
    and matched by [m] records stays [k - m] times; with the identifiers
    A, B, A and one record of code A the list left is B, A.  For
    pairwise-distinct identifiers the list is left holding exactly those
    with no feed record, in their order.  [create_prices] called with the
    list so left builds entries only for feed records whose code is still
    in it, and none at all when the identifiers were pairwise distinct;
    [main] of seller.py submits exactly these price entries. *)
Theorem create_stocks_mutates_offer_ids :
  (∀ x l,
     (x ∉ l → remove_first x l = l)
     ∧ (x ∈ l →
        ∃ l1 l2, l = l1 ++ (x :: l2) ∧ ¬ (x ∈ l1) ∧ remove_first x l = l1 ++ l2))
  ∧ (∀ F U out U',
     Seller.create_stocks F U = Ok (out, U') →
     U' = foldl (λ l w, remove_first (Seller.Kod w) l) U F
     ∧ U' `sublist_of` U
     ∧ (∀ x, occurrences x U' = occurrences x U - occurrences x (Seller.Kod <$> F))
     ∧ (NoDup U → U' = filter (λ u, u ∉ Seller.Kod <$> F) U)
     ∧ (∀ date wh, ∃ mout, Market.create_stocks date F U wh = Ok (mout, U'))
     ∧ Seller.create_prices F U' = price_entry <$> filter (λ w, Seller.Kod w ∈ U') F
     ∧ (NoDup U → Seller.create_prices F U' = []))
  ∧ (∃ out, Seller.create_stocks Mock.one_record ["A"; "B"; "A"] = Ok (out, ["B"; "A"]))
  ∧ ∀ W (get_product_list : string → W → result Seller.product_page * W)
      (update_price : list Seller.Price.t → W → result unit * W)
      (update_stocks : list Seller.Stock.t → W → result unit * W)
      (download_stock : W → result (list Seller.watch) * W)
      (print : printed → W → W)
      fuel w0 U w1 F w2 out U' chunks w3,
      Seller.get_offer_ids get_product_list fuel w0 = Some (Ok U, w1) →
      download_stock w1 = (Ok F, w2) →
      Seller.create_stocks F U = Ok (out, U') →
      Seller.divide out 100 = Ok chunks →
      for_each (λ some_stock, call (update_stocks some_stock)) chunks w2
      = Some (Ok tt, w3) →
      ∃ price_chunks,
        Seller.divide (Seller.create_prices F U') 900 = Ok price_chunks
        ∧ Seller.main get_product_list update_price update_stocks download_stock print
            fuel w0
          = try_except
              (for_each (λ some_price, call (update_price some_price)) price_chunks)
              (handlers print) w3
        ∧ (NoDup U →
           Seller.main get_product_list update_price update_stocks download_stock print
             fuel w0
           = Some (Ok tt, w3)).
Proof.
  split_and!.
  - intros x l. split; [apply remove_first_not_elem|apply remove_first_split].
  - intros F U out U' Hout.
    pose proof Hout as (es & _ & _ & ->)%create_stocks_Ok.
    split_and!.
    + apply remaining_foldl.
    + apply remaining_sublist.
    + intros x. apply remaining_occurrences.
    + apply remaining_NoDup.
    + intros date wh. eexists. by rewrite market_create_stocks_spec, Hout.
    + apply create_prices_spec.
    + intros HU. by eapply create_prices_after_create_stocks.
  - by eexists.
  - intros. by eapply seller_main_run.
Qed.

Lemma create_stocks_mutates_offer_ids_witness :
  Mock.seller_main [] = Some (Ok tt, [Mock.StocksSent "" ["A"; "B"; "C"]]).
Proof.
  destruct create_stocks_mutates_offer_ids as (_ & _ & _ & Hmain).
  destruct (Hmain (list Mock.event) Mock.seller_list Mock.seller_update_price
              Mock.seller_update_stocks Mock.download Mock.console
              1 [] ["A"; "B"; "C"] [] Mock.feed []
              [Seller.Stock.mk "A" 100; Seller.Stock.mk "B" 0; Seller.Stock.mk "C" 0]
              ["C"]
              [[Seller.Stock.mk "A" 100; Seller.Stock.mk "B" 0; Seller.Stock.mk "C" 0]]
              [Mock.StocksSent "" ["A"; "B"; "C"]]
              eq_refl eq_refl eq_refl eq_refl eq_refl)
    as (pc & _ & _ & Hnodup).
  apply Hnodup. by apply (bool_decide_unpack _).
Defined.

Lemma for_each_raise {W A} (f : A → io W unit) l1 x l2 w w1 e w2 :
  for_each f l1 w = Some (Ok tt, w1) →
  f x w1 = Some (Raise e, w2) →
  for_each f (l1 ++ x :: l2) w = Some (Raise e, w2).
Proof.
  revert w. induction l1 as [|y l1 IH]; intros w; cbn [for_each app].
  - intros [= <-] Hx. by erewrite io_bind_Raise.
  - unfold mbind, io_bind.
    destruct (f y w) as [[[[]|e'] w']|]; try done. apply IH.
Qed.

(** A batch whose submission fails ends the loop over the batches: the
    batches after it are not submitted, and the failure is what the loop
    raises, in the world the failed request left. *)
Theorem for_each_stops_at_first_failure {W A} (f : A → io W unit) l1 x l2 w w1 e w2 :
  for_each f l1 w = Some (Ok tt, w1) →
  f x w1 = Some (Raise e, w2) →
  for_each f (l1 ++ x :: l2) w = Some (Raise e, w2).
Proof. apply for_each_raise. Qed.

Lemma for_each_stops_at_first_failure_witness :
  for_each (λ some_stock, call (Mock.flaky_update_stocks some_stock "FBS"))
    Mock.three_batches []
  = Some (Raise ConnectionError, [Mock.StocksSent "FBS" ["A"]]).
Proof.
  exact (for_each_stops_at_first_failure
           (λ some_stock, call (Mock.flaky_update_stocks some_stock "FBS"))
           [[Market.stock_of "A" "W1" "2024-01-01T00:00:00Z" 100]]
           [Market.stock_of "B" "W1" "2024-01-01T00:00:00Z" 0]
           [[Market.stock_of "C" "W1" "2024-01-01T00:00:00Z" 0]]
           [] [Mock.StocksSent "FBS" ["A"]] ConnectionError
           [Mock.StocksSent "FBS" ["A"]] eq_refl eq_refl).
Defined.

Section market_main.
Context {W : Type}.
Variable get_product_list : string → string → W → result Market.product_page * W.
Variable update_stocks : list Market.Stock.t → string → W → result unit * W.
Variable download_stock : W → result (list Seller.watch) * W.
Variable utcnow : W → string.
Variable print : printed → W → W.

(** C4, as the code has it.  Both campaigns of market.py run inside one
    [try]: a failure while paging or submitting for the first campaign
    ends its block, reaches the [except] clauses, is printed, and [main]
    returns from the world the failure left, without a request for the
    second campaign.  Only when the first block ends normally does the
    second one run, from the world the first one left. *)
Theorem market_main_stops_at_first_failure
    fuel campaign_fbs_id campaign_dbs_id warehouse_fbs_id warehouse_dbs_id w0 F w1 :
  download_stock w0 = (Ok F, w1) →
  (∀ e w2,
     Market.get_offer_ids get_product_list fuel campaign_fbs_id w1 = Some (Raise e, w2) →
     Market.campaign_block get_product_list update_stocks utcnow
       fuel F campaign_fbs_id warehouse_fbs_id w1 = Some (Raise e, w2))
  ∧ (∀ U w2 out U' chunks e w3,
       Market.get_offer_ids get_product_list fuel campaign_fbs_id w1 = Some (Ok U, w2) →
       Market.create_stocks (utcnow w2) F U warehouse_fbs_id = Ok (out, U') →
       Seller.divide out 2000 = Ok chunks →
       for_each (λ some_stock, call (update_stocks some_stock campaign_fbs_id)) chunks w2
       = Some (Raise e, w3) →
       Market.campaign_block get_product_list update_stocks utcnow
         fuel F campaign_fbs_id warehouse_fbs_id w1 = Some (Raise e, w3))
  ∧ (∀ e w2,
       Market.campaign_block get_product_list update_stocks utcnow
         fuel F campaign_fbs_id warehouse_fbs_id w1 = Some (Raise e, w2) →
       Market.main get_product_list update_stocks download_stock utcnow print
         fuel campaign_fbs_id campaign_dbs_id warehouse_fbs_id warehouse_dbs_id w0
       = handlers print e w2
       ∧ ∃ m, handlers print e w2 = Some (Ok tt, print m w2))
  ∧ (∀ w2,
       Market.campaign_block get_product_list update_stocks utcnow
         fuel F campaign_fbs_id warehouse_fbs_id w1 = Some (Ok tt, w2) →
       Market.main get_product_list update_stocks download_stock utcnow print
         fuel campaign_fbs_id campaign_dbs_id warehouse_fbs_id warehouse_dbs_id w0
       = try_except
           (Market.campaign_block get_product_list update_stocks utcnow
              fuel F campaign_dbs_id warehouse_dbs_id)
           (handlers print) w2).
Proof.
  intros Hfeed. split_and!.
  - intros e w2 Hids. unfold Market.campaign_block. by erewrite io_bind_Raise.
  - intros U w2 out U' chunks e w3 Hids Hstocks Hchunks Hsend.
    unfold Market.campaign_block.
    io_step ltac:(eassumption).
    io_step ltac:(reflexivity).
    io_step ltac:(unfold lift; by rewrite Hstocks).
    io_step ltac:(unfold lift; by rewrite Hchunks). done.
  - intros e w2 Hfbs. split; [|apply handlers_prints].
    unfold Market.main.
    io_step ltac:(unfold call; by rewrite Hfeed).
    unfold try_except. by erewrite io_bind_Raise.
  - intros w2 Hfbs. unfold Market.main.
    io_step ltac:(unfold call; by rewrite Hfeed).
    unfold try_except. by erewrite io_bind_Ok.
Qed.

End market_main.

Lemma market_main_stops_at_first_failure_witness :
  Mock.market_main ["FBS"] [] = Some (Ok tt, [Mock.Printed (Error2Message HTTPError)]).
Proof.
  destruct (market_main_stops_at_first_failure
              Mock.market_list (Mock.market_update_stocks ["FBS"])
              Mock.download Mock.clock Mock.console
              1 "FBS" "DBS" "W1" "W2" [] Mock.feed [] eq_refl)
    as (_ & _ & Hfail & _).
  exact (proj1 (Hfail HTTPError [] eq_refl)).
Defined.

(** C4 as claimed fails: with a stock submission that fails for FBS only,
    [main] of market.py prints the failure and returns without any
    submission for DBS, whose own transport would have accepted the batch
    it is sent when FBS succeeds. *)
Lemma market_main_fbs_failure_blocks_dbs :
  ∃ w_failed w_ok,
    Mock.market_main ["FBS"] [] = Some (Ok tt, w_failed)
    ∧ Mock.market_main [] [] = Some (Ok tt, w_ok)
    ∧ Mock.sent_for "DBS" w_failed = []
    ∧ Mock.sent_for "DBS" w_ok = [["A"; "B"; "C"]].
Proof. do 2 eexists. split_and!; reflexivity. Qed.

(** * Further properties of the code *)

(** ** [create_prices] of seller.py *)

Lemma filter_fmap {A B} (f : A → B) (P : B → Prop) `{!∀ y, Decision (P y)} (l : list A) :
  filter P (f <$> l) = f <$> filter (λ x, P (f x)) l.
Proof.
  induction l as [|x l IH]; [done|].
  rewrite fmap_cons, !filter_cons, IH. by destruct (decide (P (f x))).
Qed.

Lemma price_conversion_digits s :
  Forall (λ c, is_digit c = true)
    (String.list_ascii_of_string (Seller.price_conversion s)).
Proof.
  unfold Seller.price_conversion.
  rewrite re_sub_non_digits_filter, String.list_ascii_of_string_of_list_ascii.
  apply Forall_forall. by intros c [Hc _]%list_elem_of_filter.
Qed.

(** [create_prices] builds one entry per feed record whose code is listed,
    in feed order, a code the feed repeats being priced once per record;
    every entry carries the fixed fields and a price made of digits only. *)
Theorem create_prices_entries (F : list Seller.watch) (U : list string) :
  Seller.Price.offer_id <$> Seller.create_prices F U
  = filter (λ code, code ∈ U) (Seller.Kod <$> F)
  ∧ Seller.Price.price <$> Seller.create_prices F U
    = (λ w, Seller.price_conversion (Seller.Tsena w))
        <$> filter (λ w, Seller.Kod w ∈ U) F
  ∧ Forall (λ p, Seller.Price.auto_action_enabled p = "UNKNOWN"
                 ∧ Seller.Price.currency_code p = "RUB"
                 ∧ Seller.Price.old_price p = "0"
                 ∧ Forall (λ c, is_digit c = true)
                     (String.list_ascii_of_string (Seller.Price.price p)))
      (Seller.create_prices F U)
  ∧ ∀ x, occurrences x (Seller.Price.offer_id <$> Seller.create_prices F U)
         = if bool_decide (x ∈ U) then occurrences x (Seller.Kod <$> F) else 0.
Proof.
  rewrite create_prices_spec. split_and!.
  - by rewrite filter_fmap, <-!list_fmap_compose.
  - by rewrite <-list_fmap_compose.
  - apply Forall_fmap, Forall_forall. intros w _. simpl.
    split_and!; try done. apply price_conversion_digits.
  - intros x. rewrite <-list_fmap_compose. unfold occurrences.
    change (Seller.Price.offer_id ∘ price_entry) with Seller.Kod.
    rewrite !filter_fmap, !length_fmap, list_filter_filter.
    case_bool_decide as Hx.
    + f_equal. apply filter_ext_elem. intros w _. split; [tauto|].
      intros Hw. split; [done|]. by rewrite Hw.
    + rewrite (filter_ext_elem _ (λ _, False)).
      * by induction F.
      * intros w _. split; [|done]. intros [Hw HU]. apply Hx. by rewrite <-Hw.
Qed.

(** On a feed of distinct codes, the identifiers [create_prices] prices on
    the identifier list are exactly those of the leading entries of what
    [create_stocks] returns for that list, in the same order: the matched
    records. *)
Theorem create_prices_match_stock_entries (F : list Seller.watch) (U : list string) out U' :
  NoDup (Seller.Kod <$> F) →
  Seller.create_stocks F U = Ok (out, U') →
  Seller.Price.offer_id <$> Seller.create_prices F U
  = take (length (Seller.create_prices F U)) (Seller.Stock.offer_id <$> out)
  ∧ length (Seller.create_prices F U) + length U' = length out.
Proof.
  intros HF Hout.
  pose proof (create_stocks_ids _ _ _ _ Hout) as Hids.
  apply create_stocks_Ok in Hout as (es & Hes & -> & ->).
  rewrite create_prices_spec, Hids, matched_NoDup by done.
  rewrite <-list_fmap_compose, length_fmap.
  change (Seller.Price.offer_id ∘ price_entry) with Seller.Kod.
  split.
  - symmetry. apply take_app_length'. by rewrite length_fmap.
  - rewrite length_app. f_equal.
    + apply bucket_all_Ok, Forall2_length in Hes.
      by rewrite <-Hes, matched_NoDup.
    + unfold zero_stocks. by rewrite length_fmap.
Qed.

Lemma create_prices_match_stock_entries_witness :
  Seller.Price.offer_id <$> Seller.create_prices Mock.swapped_feed ["A"; "B"; "C"]
  = take 2 ["B"; "A"; "C"].
Proof.
  assert (HF : NoDup (Seller.Kod <$> Mock.swapped_feed))
    by (by apply (bool_decide_unpack _)).
  exact (proj1 (create_prices_match_stock_entries Mock.swapped_feed ["A"; "B"; "C"]
                  [Seller.Stock.mk "B" 5; Seller.Stock.mk "A" 3; Seller.Stock.mk "C" 0]
                  ["C"] HF eq_refl)).
Defined.

(** ** [price_conversion] *)

Lemma before_first_dot_digits s :
  Forall (λ c, is_digit c = true) (String.list_ascii_of_string s) →
  before_first_dot s = s.
Proof.
  intros Hs. apply before_first_dot_no_dot.
  intros Hdot. rewrite Forall_forall in Hs. apply Hs in Hdot. by vm_compute in Hdot.
Qed.

Lemma price_conversion_fixes_digits s :
  Forall (λ c, is_digit c = true) (String.list_ascii_of_string s) →
  Seller.price_conversion s = s.
Proof.
  intros Hs. unfold Seller.price_conversion.
  rewrite py_split_first, re_sub_non_digits_filter, before_first_dot_digits by done.
  rewrite filter_all; [apply String.string_of_list_ascii_of_string|].
  by apply Forall_forall.
Qed.

Lemma string_length_chars s : String.length s = length (String.list_ascii_of_string s).
Proof. induction s as [|c s IH]; simpl; [done|]. by rewrite IH. Qed.

Lemma before_first_dot_length s : String.length (before_first_dot s) ≤ String.length s.
Proof.
  induction s as [|c s IH]; simpl; [done|].
  case_bool_decide; simpl; lia.
Qed.

(** Normalising a price twice changes nothing more; a string of digits is
    its own normal form; and the result is never longer than the input. *)
Theorem price_conversion_idempotent :
  (∀ s, Seller.price_conversion (Seller.price_conversion s) = Seller.price_conversion s)
  ∧ (∀ s, Forall (λ c, is_digit c = true) (String.list_ascii_of_string s) →
          Seller.price_conversion s = s)
  ∧ (∀ s, String.length (Seller.price_conversion s) ≤ String.length s)
  ∧ (∀ s, Seller.price_conversion s = EmptyString ↔
          Forall (λ c, is_digit c = false)
            (String.list_ascii_of_string (before_first_dot s))).
Proof.
  split_and!.
  - intros s. apply price_conversion_fixes_digits, price_conversion_digits.
  - apply price_conversion_fixes_digits.
  - intros s. unfold Seller.price_conversion.
    rewrite py_split_first, re_sub_non_digits_filter, string_length_chars.
    rewrite String.list_ascii_of_string_of_list_ascii.
    etrans; [apply length_filter|].
    rewrite <-string_length_chars. apply before_first_dot_length.
  - intros s. unfold Seller.price_conversion.
    rewrite py_split_first, re_sub_non_digits_filter.
    generalize (String.list_ascii_of_string (before_first_dot s)). intros l.
    induction l as [|c l IH]; [done|].
    rewrite filter_cons, Forall_cons. destruct (is_digit c) eqn:Hc.
    + rewrite decide_True by done. simpl. split; [done|]. by intros [? _].
    + rewrite decide_False by (by intros ?). rewrite IH. tauto.
Qed.

(** ** [divide]: how many chunks *)

(** A positive [n] cuts a list of [len] elements into [ceil(len / n)]
    chunks, a single one holding the whole list when it is not empty and
    has at most [n] elements; [n = 0] raises [ValueError]; a negative [n]
    yields no chunk at all, whatever the list holds. *)
Theorem divide_chunk_count {A} (lst : list A) :
  (∀ n, (0 < n)%Z →
     ∃ chunks, Seller.divide lst n = Ok chunks
       ∧ length chunks = (length lst + Z.to_nat n - 1) / Z.to_nat n
       ∧ (Z.of_nat (length chunks) * n < Z.of_nat (length lst) + n)%Z
       ∧ (lst ≠ [] → (Z.of_nat (length lst) ≤ n)%Z → chunks = [lst]))
  ∧ Seller.divide lst 0 = Raise ValueError
  ∧ (∀ n, (n < 0)%Z → Seller.divide lst n = Ok []).
Proof.
  split_and!.
  - intros n Hn. rewrite divide_unfold by done.
    set (k := Z.to_nat n). assert (Hk : 0 < k) by (unfold k; lia).
    eexists. split; [done|].
    rewrite !length_fmap, length_seq. split; [done|].
    pose proof (Nat.div_mod_eq (length lst + k - 1) k) as Hdm.
    pose proof (Nat.mod_upper_bound (length lst + k - 1) k ltac:(lia)) as Hmod.
    split.
    { assert ((length lst + k - 1) / k * k < length lst + k) by nia.
      assert (Hnk : n = Z.of_nat k) by (unfold k; lia). rewrite Hnk. nia. }
    intros Hne Hlen.
    assert (0 < length lst) by (destruct lst; [done|simpl; lia]).
    assert (length lst ≤ k) by (unfold k; lia).
    assert ((length lst + k - 1) / k = 1) as ->.
    { symmetry. apply (Nat.div_unique _ _ 1 (length lst - 1)); lia. }
    simpl. unfold py_slice. rewrite drop_0, take_ge by lia. done.
  - unfold Seller.divide, py_range0. by rewrite bool_decide_eq_true_2.
  - intros n Hn. unfold Seller.divide, py_range0.
    rewrite bool_decide_eq_false_2 by lia. by rewrite bool_decide_eq_true_2.
Qed.

(** ** Edge cases of [create_stocks] *)

Lemma matched_unlisted F U :
  (∀ w, w ∈ F → Seller.Kod w ∉ U) → matched F U = [] ∧ remaining F U = U.
Proof.
  induction F as [|w F IH]; intros HF; simpl; [done|].
  rewrite bool_decide_eq_false_2 by (apply HF; by left).
  apply IH. intros w' Hw'. apply HF. by right.
Qed.

(** When no feed record carries a listed code (an empty feed, an empty
    list, or two unrelated catalogues) [create_stocks] returns a zero entry
    per identifier, in order, leaves the list as it was, and raises nothing
    whatever the quantities of the feed are: they are not read. *)
Theorem create_stocks_unlisted_feed (F : list Seller.watch) (U : list string) :
  (∀ w, w ∈ F → Seller.Kod w ∉ U) →
  Seller.create_stocks F U = Ok (zero_stocks U, U)
  ∧ (∀ date wh,
       Market.create_stocks date F U wh
       = Ok (market_stock wh date <$> zero_stocks U, U))
  ∧ Seller.create_prices F U = [].
Proof.
  intros HF. destruct (matched_unlisted F U HF) as [Hm Hr].
  assert (Hs : Seller.create_stocks F U = Ok (zero_stocks U, U))
    by (by rewrite create_stocks_spec, Hm, Hr).
  split_and!; [done| |].
  - intros date wh. by rewrite market_create_stocks_spec, Hs.
  - rewrite create_prices_spec, (filter_ext_elem _ (λ _, False)).
    + clear. by induction F.
    + intros w Hw. split; [|done]. by apply HF.
Qed.

Lemma create_stocks_unlisted_feed_witness :
  Seller.create_stocks Mock.bad_feed ["B"; "C"]
  = Ok ([Seller.Stock.mk "B" 0; Seller.Stock.mk "C" 0], ["B"; "C"]).
Proof.
  refine (proj1 (create_stocks_unlisted_feed Mock.bad_feed ["B"; "C"] _)).
  intros w ->%list_elem_of_singleton. simpl.
  by apply (bool_decide_unpack _).
Defined.

(** ** The sign of a stock *)

Lemma digit_value_nonneg c : is_digit c = true → (0 ≤ digit_value c)%Z.
Proof.
  unfold is_digit, digit_value. cbv zeta.
  intros [H1%Nat.leb_le _]%andb_prop. lia.
Qed.

Lemma decimal_nonneg s N : decimal s N → (0 ≤ N)%Z.
Proof.
  induction 1 as [c Hc|s N c _ IH Hc]; [by apply digit_value_nonneg|].
  pose proof (digit_value_nonneg c Hc). lia.
Qed.

Lemma strip_minus_digits ds :
  Forall (λ c, is_digit c = true) ds → ds ≠ [] →
  strip ("-"%char :: ds) = "-"%char :: ds.
Proof.
  intros Hds Hne. unfold strip.
  change (lstrip ("-"%char :: ds)) with ("-"%char :: ds).
  change (rev ("-"%char :: ds)) with (rev ds ++ ["-"%char]).
  destruct (rev ds) as [|d r] eqn:Hrev.
  { apply (f_equal (@rev _)) in Hrev. rewrite rev_involutive in Hrev. done. }
  assert (Hd : is_digit d = true).
  { rewrite Forall_forall in Hds. apply Hds, list_elem_of_In, in_rev.
    rewrite Hrev. by left. }
  change ((d :: r) ++ ["-"%char]) with (d :: (r ++ ["-"%char])).
  rewrite lstrip_digit by done.
  change (d :: (r ++ ["-"%char])) with ((d :: r) ++ ["-"%char]).
  by rewrite <-Hrev, rev_app_distr, rev_involutive.
Qed.

Lemma py_int_minus s :
  let l := String.list_ascii_of_string s in
  Forall (λ c, is_digit c = true) l → l ≠ [] →
  py_int (String "-"%char s) = Z.opp <$> int_literal l.
Proof.
  intros l Hl Hne. unfold py_int. simpl String.list_ascii_of_string. fold l.
  rewrite strip_minus_digits by done.
  by rewrite bool_decide_eq_false_2, bool_decide_eq_true_2 by done.
Qed.

Lemma bucket_minus s N :
  decimal s N → (Z.of_nat (String.length s) ≤ max_str_digits)%Z →
  Seller.bucket (String "-"%char s) = Ok (- N)%Z.
Proof.
  intros (Hl & Hne & ->)%decimal_chars Hlen.
  unfold Seller.bucket. rewrite !bool_decide_eq_false_2 by done.
  rewrite py_int_minus by done.
  rewrite int_literal_all_digits; [done..|]. by rewrite length_chars.
Qed.

Lemma bucket_minus_long s N :
  decimal s N → (max_str_digits < Z.of_nat (String.length s))%Z →
  Seller.bucket (String "-"%char s) = Raise ValueError.
Proof.
  intros (Hl & Hne & ->)%decimal_chars Hlen.
  unfold Seller.bucket. rewrite !bool_decide_eq_false_2 by done.
  rewrite py_int_minus by done.
  rewrite int_literal_too_long; [done..|]. by rewrite length_chars.
Qed.

(** On a feed whose quantities are ">10", "1" or decimal integers no stock
    is negative.  The code does not clamp, though: a quantity written with
    a minus sign before no more digits than [int] reads is sent as a
    negative stock; before more digits it makes the call raise. *)
Theorem create_stocks_stock_sign :
  (∀ (F : list Seller.watch) (U : list string) out U',
     Forall (λ w, Seller.Kolichestvo w = ">10" ∨ Seller.Kolichestvo w = "1"
                  ∨ ∃ N, decimal (Seller.Kolichestvo w) N) F →
     Seller.create_stocks F U = Ok (out, U') →
     Forall (λ e, (0 ≤ Seller.Stock.stock e)%Z) out)
  ∧ (∀ s N, decimal s N →
            (Z.of_nat (String.length s) ≤ max_str_digits)%Z →
            Seller.bucket (String "-"%char s) = Ok (- N)%Z)
  ∧ (∀ s N, decimal s N →
            (max_str_digits < Z.of_nat (String.length s))%Z →
            Seller.bucket (String "-"%char s) = Raise ValueError)
  ∧ (∀ code price s N (U : list string),
       decimal s N →
       (Z.of_nat (String.length s) ≤ max_str_digits)%Z →
       code ∈ U →
       ∃ out U',
         Seller.create_stocks
           [{| Seller.Kod := code; Seller.Kolichestvo := String "-"%char s;
               Seller.Tsena := price |}] U = Ok (out, U')
         ∧ head out = Some (Seller.Stock.mk code (- N)%Z)).
Proof.
  split_and!.
  - intros F U out U' HF (es & Hes & -> & ->)%create_stocks_Ok.
    apply Forall_app. split.
    + apply bucket_all_Ok in Hes.
      assert (HFm : Forall (λ w, Seller.Kolichestvo w = ">10"
                                 ∨ Seller.Kolichestvo w = "1"
                                 ∨ ∃ N, decimal (Seller.Kolichestvo w) N)
                      (matched F U)).
      { apply Forall_forall. intros w [Hw _]%matched_elem.
        by apply (proj1 (Forall_forall _ _) HF). }
      clear HF. induction Hes as [|w e ws es' [_ Hb] _ IH]; [done|].
      apply Forall_cons in HFm as [Hq HFm]. constructor; [|by apply IH].
      destruct Hq as [Hq|[Hq|[N HN]]].
      * rewrite Hq in Hb. injection Hb as <-. done.
      * rewrite Hq in Hb. injection Hb as <-. done.
      * destruct (decide (Seller.Kolichestvo w = "1")) as [Hq|Hq].
        { rewrite Hq in Hb. injection Hb as <-. done. }
        destruct (decide (Z.of_nat (String.length (Seller.Kolichestvo w))
                          ≤ max_str_digits)%Z) as [Hlen|Hlen].
        -- rewrite (bucket_decimal _ _ HN Hlen Hq) in Hb. injection Hb as <-.
           by eapply decimal_nonneg.
        -- rewrite (bucket_decimal_long _ _ HN) in Hb by lia. done.
    + unfold zero_stocks. apply Forall_fmap, Forall_forall. by intros u _.
  - apply bucket_minus.
  - apply bucket_minus_long.
  - intros code price s N U HN Hlen HU. rewrite create_stocks_spec. simpl.
    rewrite bool_decide_eq_true_2 by done. simpl.
    rewrite (bucket_minus _ _ HN Hlen). simpl. by do 2 eexists.
Qed.

Lemma create_stocks_stock_sign_witness :
  Seller.bucket "-5" = Ok (-5)%Z.
Proof.
  destruct create_stocks_stock_sign as (_ & Hminus & _).
  apply (Hminus "5" 5%Z (decimal_digit "5"%char eq_refl)).
  by vm_compute.
Defined.

(** ** [create_prices] of market.py *)

Lemma market_create_prices_loop_spec F prices U :
  Market.create_prices_loop F prices U =
  match market_price_all (filter (λ w, Seller.Kod w ∈ U) F) with
  | Ok ps => Ok (prices ++ ps)
  | Raise e => Raise e
  end.
Proof.
  revert prices. induction F as [|w F IH]; intros prices; simpl.
  - by rewrite app_nil_r.
  - rewrite filter_cons. case_bool_decide as Hw.
    + rewrite decide_True by done. simpl.
      destruct (py_int _) as [v|e]; simpl; [|done].
      rewrite IH. destruct (market_price_all _) as [ps|e]; simpl; [|done].
      by rewrite <-app_assoc.
    + rewrite decide_False by done. apply IH.
Qed.

Lemma foldl_horner_nonneg l acc :
  Forall (λ c, is_digit c = true) l → (0 ≤ acc)%Z → (0 ≤ foldl horner acc l)%Z.
Proof.
  intros Hl. revert acc. induction Hl as [|c l Hc _ IH]; intros acc Hacc; [done|].
  simpl. apply IH. unfold horner. pose proof (digit_value_nonneg c Hc). lia.
Qed.

Lemma py_int_price s :
  let t := Seller.price_conversion s in
  ((t = EmptyString ∨ (max_str_digits < Z.of_nat (String.length t))%Z)
   ∧ py_int t = Raise ValueError)
  ∨ (t ≠ EmptyString
     ∧ (Z.of_nat (String.length t) ≤ max_str_digits)%Z
     ∧ ∃ v, py_int t = Ok v ∧ (0 ≤ v)%Z).
Proof.
  intros t. pose proof (price_conversion_digits s) as Hd. fold t in Hd.
  destruct (decide (t = EmptyString)) as [Ht|Ht].
  { left. split; [by left|]. by rewrite Ht. }
  destruct (decide (Z.of_nat (String.length t) ≤ max_str_digits)%Z) as [Hlen|Hlen].
  - right. split_and!; [done..|].
    eexists. split.
    + apply py_int_all_digits; [done| |done]. by destruct t.
    + by apply foldl_horner_nonneg.
  - left. split; [right; lia|]. apply py_int_too_long; [done|lia].
Qed.

Lemma market_price_all_Ok ws out :
  market_price_all ws = Ok out →
  Forall2 (λ w mp,
      Market.Price.id mp = Seller.Kod w
      ∧ py_int (Seller.price_conversion (Seller.Tsena w))
        = Ok (Market.value (Market.Price.price mp))
      ∧ Market.currencyId (Market.Price.price mp) = "RUR"
      ∧ (0 ≤ Market.value (Market.Price.price mp))%Z) ws out.
Proof.
  revert out. induction ws as [|w ws IH]; intros out; simpl.
  - intros [= <-]. constructor.
  - destruct (py_int_price (Seller.Tsena w)) as [[_ Hp]|(_ & _ & v & Hp & Hv)];
      rewrite Hp; [done|].
    destruct (market_price_all ws) as [ps|e]; simpl; [|done].
    intros [= <-]. constructor; [done|by apply IH].
Qed.

Lemma market_price_all_is_Ok ws :
  is_Ok (market_price_all ws)
  ↔ ∀ w, w ∈ ws →
         Seller.price_conversion (Seller.Tsena w) ≠ EmptyString
         ∧ (Z.of_nat (String.length (Seller.price_conversion (Seller.Tsena w)))
            ≤ max_str_digits)%Z.
Proof.
  induction ws as [|w ws IH]; simpl.
  - split; [by intros _ w ?%elem_of_nil|by eexists].
  - destruct (py_int_price (Seller.Tsena w)) as [[Hbad Hp]|(Hne & Hlen & v & Hp & _)];
      rewrite Hp.
    + split; [by intros [? ?]|]. intros Hall.
      destruct (Hall w) as [Hne Hlen]; [by left|]. destruct Hbad; [done|lia].
    + split.
      * intros [out Hout] w' [->|Hw']%elem_of_cons; [done|].
        apply IH; [|done]. destruct (market_price_all ws); [by eexists|done].
      * intros Hall. destruct (proj2 IH) as [ps ->]; [|by eexists].
        intros w' Hw'. apply Hall. by right.
Qed.

Lemma market_price_all_Raise ws e : market_price_all ws = Raise e → e = ValueError.
Proof.
  induction ws as [|w ws IH]; simpl; [done|].
  destruct (py_int _) as [v|e'] eqn:Hp.
  - destruct (market_price_all ws); simpl; [done|]. intros [= ->]. by apply IH.
  - intros [= ->]. by apply py_int_raise in Hp.
Qed.

Lemma market_create_prices_is_Ok F U :
  is_Ok (Market.create_prices F U)
  ↔ ∀ w, w ∈ F → Seller.Kod w ∈ U →
         Seller.price_conversion (Seller.Tsena w) ≠ EmptyString
         ∧ (Z.of_nat (String.length (Seller.price_conversion (Seller.Tsena w)))
            ≤ max_str_digits)%Z.
Proof.
  unfold Market.create_prices. rewrite market_create_prices_loop_spec.
  etrans; [|etrans; [apply (market_price_all_is_Ok (filter (λ w, Seller.Kod w ∈ U) F))|]].
  - destruct (market_price_all _); split; intros [? ?]; by try eexists.
  - split.
    + intros H w Hw HU. apply H. by apply list_elem_of_filter.
    + intros H w [HU Hw]%list_elem_of_filter. by apply H.
Qed.

Lemma market_create_prices_Raise F U e :
  Market.create_prices F U = Raise e → e = ValueError.
Proof.
  unfold Market.create_prices. rewrite market_create_prices_loop_spec.
  destruct (market_price_all _) eqn:Hall; [done|].
  intros [= ->]. by eapply market_price_all_Raise.
Qed.

(** [create_prices] of market.py reads each normalised price with [int]:
    it returns exactly when the price of every feed record with a listed
    code has, before its first ".", at least one digit and no more digits
    than [int] reads, and raises [ValueError] otherwise.  What it returns
    pairs off with the entries of seller.py's [create_prices]: the same
    identifier, the price string read as a non-negative integer, the
    currency "RUR". *)
Theorem market_create_prices_values (F : list Seller.watch) (U : list string) :
  (is_Ok (Market.create_prices F U)
   ↔ ∀ w, w ∈ F → Seller.Kod w ∈ U →
          Seller.price_conversion (Seller.Tsena w) ≠ EmptyString
          ∧ (Z.of_nat (String.length (Seller.price_conversion (Seller.Tsena w)))
             ≤ max_str_digits)%Z)
  ∧ (∀ e, Market.create_prices F U = Raise e → e = ValueError)
  ∧ ∀ out, Market.create_prices F U = Ok out →
      Forall2 (λ sp mp,
          Market.Price.id mp = Seller.Price.offer_id sp
          ∧ py_int (Seller.Price.price sp) = Ok (Market.value (Market.Price.price mp))
          ∧ Market.currencyId (Market.Price.price mp) = "RUR"
          ∧ (0 ≤ Market.value (Market.Price.price mp))%Z)
        (Seller.create_prices F U) out.
Proof.
  split_and!.
  - apply market_create_prices_is_Ok.
  - apply market_create_prices_Raise.
  - unfold Market.create_prices. rewrite market_create_prices_loop_spec.
    intros out. destruct (market_price_all _) as [ps|e] eqn:Hall; [|done].
    intros [= <-]. rewrite create_prices_spec. apply Forall2_fmap_l.
    by apply market_price_all_Ok.
Qed.

(** ** The first failure in [main] of seller.py *)

Section seller_main_failures.
Context {W : Type}.
Variable get_product_list : string → W → result Seller.product_page * W.
Variable update_price : list Seller.Price.t → W → result unit * W.
Variable update_stocks : list Seller.Stock.t → W → result unit * W.
Variable download_stock : W → result (list Seller.watch) * W.
Variable print : printed → W → W.

(** In seller.py's [main] the first failure ends the work: a failed page
    request means the feed is not downloaded; a failed download or a
    quantity [create_stocks] refuses means no batch is sent; a failed stock
    batch means no price is computed or sent.  In each case [main] returns
    from the world the failure left, with one message printed. *)
Theorem seller_main_stops_at_first_failure fuel w0 :
  (∀ e w1,
     Seller.get_offer_ids get_product_list fuel w0 = Some (Raise e, w1) →
     Seller.main get_product_list update_price update_stocks download_stock print fuel w0
     = handlers print e w1)
  ∧ ∀ U w1, Seller.get_offer_ids get_product_list fuel w0 = Some (Ok U, w1) →
      (∀ e w2, download_stock w1 = (Raise e, w2) →
         Seller.main get_product_list update_price update_stocks download_stock print fuel w0
         = handlers print e w2)
      ∧ ∀ F w2, download_stock w1 = (Ok F, w2) →
          (∀ e, Seller.create_stocks F U = Raise e →
             Seller.main get_product_list update_price update_stocks download_stock print
               fuel w0
             = handlers print e w2)
          ∧ ∀ out U' chunks e w3,
              Seller.create_stocks F U = Ok (out, U') →
              Seller.divide out 100 = Ok chunks →
              for_each (λ some_stock, call (update_stocks some_stock)) chunks w2
              = Some (Raise e, w3) →
              Seller.main get_product_list update_price update_stocks download_stock print
                fuel w0
              = handlers print e w3.
Proof.
  split.
  - intros e w1 Hids. unfold Seller.main, try_except. by erewrite io_bind_Raise.
  - intros U w1 Hids. split.
    + intros e w2 Hdl. unfold Seller.main, try_except.
      io_step ltac:(eassumption).
      by erewrite io_bind_Raise by (unfold call; by rewrite Hdl).
    + intros F w2 Hdl. split.
      * intros e Hs. unfold Seller.main, try_except.
        io_step ltac:(eassumption).
        io_step ltac:(unfold call; by rewrite Hdl).
        by erewrite io_bind_Raise by (unfold lift; by rewrite Hs).
      * intros out U' chunks e w3 Hs Hc Hsend. unfold Seller.main, try_except.
        io_step ltac:(eassumption).
        io_step ltac:(unfold call; by rewrite Hdl).
        io_step ltac:(unfold lift; by rewrite Hs).
        io_step ltac:(unfold lift; by rewrite Hc).
        by erewrite io_bind_Raise by eassumption.
Qed.

End seller_main_failures.

Lemma seller_main_stops_at_first_failure_witness :
  Seller.main Mock.seller_list Mock.seller_update_price Mock.seller_timeout_stocks
    Mock.download Mock.console 1 []
  = Some (Ok tt, [Mock.Printed TimeoutMessage]).
Proof.
  destruct (seller_main_stops_at_first_failure
              Mock.seller_list Mock.seller_update_price Mock.seller_timeout_stocks
              Mock.download Mock.console 1 []) as [_ H].
  destruct (H ["A"; "B"; "C"] [] eq_refl) as [_ H'].
  destruct (H' Mock.feed [] eq_refl) as [_ H''].
  exact (H'' [Seller.Stock.mk "A" 100; Seller.Stock.mk "B" 0; Seller.Stock.mk "C" 0]
            ["C"]
            [[Seller.Stock.mk "A" 100; Seller.Stock.mk "B" 0; Seller.Stock.mk "C" 0]]
            ReadTimeout [] eq_refl eq_refl eq_refl).
Defined.

(** ** Failures and divergence of the pagers *)

Section seller_pager_failures.
Context {W : Type}.
Variable get_product_list : string → W → result Seller.product_page * W.

Lemma seller_loop_raise_iff fuel last_id acc w e w' :
  Seller.get_offer_ids_loop get_product_list fuel last_id acc w = Some (Raise e, w')
  ↔ ∃ n, n ≤ fuel ∧ seller_paging_fails get_product_list n w last_id acc e w'.
Proof.
  revert w last_id acc. induction fuel as [|fuel IH]; intros w last_id acc.
  { split; [done|]. intros (n & Hn & Hrun). inversion Hrun; subst; lia. }
  simpl. unfold mbind at 1, io_bind at 1, call.
  destruct (get_product_list last_id w) as [[p|e'] w1] eqn:Hget.
  - case_bool_decide as Htot.
    + split; [done|]. intros (n & _ & Hrun). inversion Hrun; subst; congruence.
    + rewrite IH. split.
      * intros (n & Hn & Hrun). exists (S n). split; [lia|].
        by eapply seller_fails_later.
      * intros (n & Hn & Hrun). inversion Hrun as [|n']; subst; [congruence|].
        exists n'. split; [lia|]. congruence.
  - split.
    + intros [= <- <-]. exists 1. split; [lia|]. by constructor.
    + intros (n & _ & Hrun). inversion Hrun; subst; congruence.
Qed.

Lemma seller_loop_overshoot T :
  (∀ cursor w, ∃ p w', get_product_list cursor w = (Ok p, w') ∧ (Seller.total p ≤ T)%Z) →
  ∀ fuel last_id acc w,
    (T < Z.of_nat (length acc))%Z →
    Seller.get_offer_ids_loop get_product_list fuel last_id acc w = None.
Proof.
  intros Hget fuel. induction fuel as [|fuel IH]; intros last_id acc w Hacc; [done|].
  simpl. unfold mbind at 1, io_bind at 1, call.
  destruct (Hget last_id w) as (p & w' & -> & Htot).
  rewrite bool_decide_eq_false_2 by (rewrite length_app; lia).
  apply IH. rewrite length_app. lia.
Qed.

End seller_pager_failures.

Section market_pager_failures.
Context {W : Type}.
Variable get_product_list : string → string → W → result Market.product_page * W.

Lemma market_loop_raise_iff fuel campaign page acc w e w' :
  Market.get_offer_ids_loop get_product_list fuel campaign page acc w
  = Some (Raise e, w')
  ↔ ∃ n, n ≤ fuel ∧ market_paging_fails get_product_list campaign n w page e w'.
Proof.
  revert w page acc. induction fuel as [|fuel IH]; intros w page acc.
  { split; [done|]. intros (n & Hn & Hrun). inversion Hrun; subst; lia. }
  simpl. unfold mbind at 1, io_bind at 1, call.
  destruct (get_product_list page campaign w) as [[p|e'] w1] eqn:Hget.
  - destruct (Market.truthy _) eqn:Htoken.
    + rewrite IH. split.
      * intros (n & Hn & Hrun). exists (S n). split; [lia|].
        by eapply market_fails_later.
      * intros (n & Hn & Hrun). inversion Hrun as [|n']; subst; [congruence|].
        exists n'. split; [lia|]. congruence.
    + split; [done|]. intros (n & _ & Hrun). inversion Hrun; subst; congruence.
  - split.
    + intros [= <- <-]. exists 1. split; [lia|]. by constructor.
    + intros (n & _ & Hrun). inversion Hrun; subst; congruence.
Qed.

End market_pager_failures.

(** When a pager raises, for a transport whose every answer is a
    well-formed page or an exception.  [get_offer_ids] raises [e] and
    leaves the world [w'] exactly when one of the requests of its own
    cursor chain does: the requests before it, the first at the empty
    cursor and each next one at the cursor of the page before, answered
    pages that did not meet the stopping test, and the next request raised
    [e] and left [w'].  In particular a failure of the first request is
    the outcome of the call. *)
Theorem pagers_raise_transport_failures :
  (∀ W (get_product_list : string → W → result Seller.product_page * W) fuel w e w',
     (Seller.get_offer_ids get_product_list fuel w = Some (Raise e, w')
      ↔ ∃ n, n ≤ fuel ∧ seller_paging_fails get_product_list n w "" [] e w')
     ∧ (get_product_list "" w = (Raise e, w') →
        Seller.get_offer_ids get_product_list (S fuel) w = Some (Raise e, w')))
  ∧ (∀ W (get_product_list : string → string → W → result Market.product_page * W)
       fuel campaign_id w e w',
     (Market.get_offer_ids get_product_list fuel campaign_id w = Some (Raise e, w')
      ↔ ∃ n, n ≤ fuel ∧ market_paging_fails get_product_list campaign_id n w "" e w')
     ∧ (get_product_list "" campaign_id w = (Raise e, w') →
        Market.get_offer_ids get_product_list (S fuel) campaign_id w
        = Some (Raise e, w'))).
Proof.
  split.
  - intros W get fuel w e w'. split.
    + rewrite <-seller_loop_raise_iff.
      unfold Seller.get_offer_ids, mbind at 1, io_bind at 1.
      destruct (Seller.get_offer_ids_loop _ _ _ _ _) as [[[pl|e'] w1]|];
        split; intros H; try unfold mret, io_ret in H;
        first [discriminate H | by injection H as <- <-].
    + intros Hget. unfold Seller.get_offer_ids. simpl.
      unfold mbind, io_bind, call. by rewrite Hget.
  - intros W get fuel campaign w e w'. split.
    + rewrite <-(market_loop_raise_iff get fuel campaign "" []).
      unfold Market.get_offer_ids, mbind at 1, io_bind at 1.
      destruct (Market.get_offer_ids_loop _ _ _ _ _ _) as [[[pl|e'] w1]|];
        split; intros H; try unfold mret, io_ret in H;
        first [discriminate H | by injection H as <- <-].
    + intros Hget. unfold Market.get_offer_ids. simpl.
      unfold mbind, io_bind, call. by rewrite Hget.
Qed.

(** The Seller pager stops on equality only.  With a transport that always
    answers and never reports a total above [T], once more than [T]
    products are collected the loop cannot return, whatever the fuel; so
    the call itself cannot return when the first page already holds more
    than [T] products. *)
Theorem seller_pager_overshoot_never_returns {W}
    (get_product_list : string → W → result Seller.product_page * W) (T : Z) :
  (∀ cursor w, ∃ p w', get_product_list cursor w = (Ok p, w') ∧ (Seller.total p ≤ T)%Z) →
  (∀ fuel last_id acc w,
     (T < Z.of_nat (length acc))%Z →
     Seller.get_offer_ids_loop get_product_list fuel last_id acc w = None)
  ∧ (∀ p0 w0 w1,
       get_product_list "" w0 = (Ok p0, w1) →
       (T < Z.of_nat (length (Seller.items p0)))%Z →
       ∀ fuel, Seller.get_offer_ids get_product_list fuel w0 = None).
Proof.
  intros Hget. split; [by apply seller_loop_overshoot|].
  intros p0 w0 w1 Hp0 Hover [|fuel]; [done|].
  unfold Seller.get_offer_ids. simpl.
  unfold mbind at 1 2, io_bind at 1 2, call. rewrite Hp0. simpl.
  destruct (Hget "" w0) as (p & w' & Hp & Htot).
  assert (p = p0) as -> by congruence.
  rewrite bool_decide_eq_false_2 by lia.
  by rewrite (seller_loop_overshoot _ T Hget) by (simpl; lia).
Qed.

Lemma seller_pager_overshoot_never_returns_witness :
  Seller.get_offer_ids Mock.stale_total 5 tt = None.
Proof.
  refine (proj2 (seller_pager_overshoot_never_returns Mock.stale_total 1 _)
            _ tt tt eq_refl _ 5); [|done].
  intros cursor w. by do 2 eexists.
Defined.

(** ** The upload functions *)

Lemma create_stocks_length F U out U' :
  Seller.create_stocks F U = Ok (out, U') → length out = length U.
Proof.
  intros Hout. rewrite <-(length_fmap Seller.Stock.offer_id).
  by rewrite (create_stocks_ids _ _ _ _ Hout), matched_remaining_perm.
Qed.

Lemma divide_chunks {A} (lst : list A) n :
  (0 < n)%Z →
  ∃ chunks, Seller.divide lst n = Ok chunks
    ∧ concat chunks = lst
    ∧ length chunks = (length lst + Z.to_nat n - 1) / Z.to_nat n.
Proof.
  intros Hn. rewrite divide_unfold by done. eexists. split; [done|]. split.
  - rewrite concat_slices. apply take_ge, chunk_count_covers. lia.
  - by rewrite !length_fmap, length_seq.
Qed.

Lemma create_stocks_nonzero_entry F U out U' s :
  Seller.create_stocks F U = Ok (out, U') →
  s ∈ out → Seller.Stock.stock s ≠ 0%Z →
  ∃ w, w ∈ F ∧ Seller.Kod w = Seller.Stock.offer_id s
       ∧ Seller.Kod w ∈ U
       ∧ Seller.Kolichestvo w ≠ "1"
       ∧ Seller.bucket (Seller.Kolichestvo w) = Ok (Seller.Stock.stock s).
Proof.
  intros (es & Hes & -> & ->)%create_stocks_Ok [Hs|Hs]%elem_of_app Hnz.
  - apply bucket_all_Ok in Hes.
    apply list_elem_of_lookup in Hs as [i Hi].
    destruct (Forall2_lookup_r _ _ _ _ _ Hes Hi) as (w & Hw & Hid & Hb).
    apply list_elem_of_lookup_2, matched_elem in Hw as [HwF HwU].
    exists w. split_and!; try done.
    intros Hq. rewrite Hq in Hb. injection Hb as Hb. congruence.
  - unfold zero_stocks in Hs. by apply list_elem_of_fmap in Hs as (u & -> & _).
Qed.

Section seller_uploads.
Context {W : Type}.
Variable get_product_list : string → W → result Seller.product_page * W.
Variable update_price : list Seller.Price.t → W → result unit * W.
Variable update_stocks : list Seller.Stock.t → W → result unit * W.

(** [upload_stocks] of seller.py, once the identifiers [U] are fetched.  A
    quantity [create_stocks] refuses ends the call before any batch is
    sent.  Otherwise the entries are sent in [ceil(len(U) / 100)] batches
    that together are the entries in order; a failed batch is raised to
    the caller (there is no handler here); and on success the call returns
    the entries together with those of non-zero stock, each of which
    stems from a feed record with a listed code and a quantity other than
    "1". *)
Theorem seller_upload_stocks_result fuel (F : list Seller.watch) w0 (U : list string) w1 :
  Seller.get_offer_ids get_product_list fuel w0 = Some (Ok U, w1) →
  (∀ e, Seller.create_stocks F U = Raise e →
        Seller.upload_stocks get_product_list update_stocks fuel F w0
        = Some (Raise e, w1))
  ∧ ∀ out U', Seller.create_stocks F U = Ok (out, U') →
      ∃ chunks,
        Seller.divide out 100 = Ok chunks
        ∧ concat chunks = out
        ∧ length chunks = (length U + 99) / 100
        ∧ (∀ e w2,
             for_each (λ some_stock, call (update_stocks some_stock)) chunks w1
             = Some (Raise e, w2) →
             Seller.upload_stocks get_product_list update_stocks fuel F w0
             = Some (Raise e, w2))
        ∧ ∀ w2,
            for_each (λ some_stock, call (update_stocks some_stock)) chunks w1
            = Some (Ok tt, w2) →
            ∃ not_empty,
              Seller.upload_stocks get_product_list update_stocks fuel F w0
              = Some (Ok (not_empty, out), w2)
              ∧ not_empty `sublist_of` out
              ∧ (∀ s, s ∈ not_empty ↔ s ∈ out ∧ Seller.Stock.stock s ≠ 0%Z)
              ∧ ∀ s, s ∈ not_empty →
                  ∃ w, w ∈ F ∧ Seller.Kod w = Seller.Stock.offer_id s
                       ∧ Seller.Kod w ∈ U
                       ∧ Seller.Kolichestvo w ≠ "1"
                       ∧ Seller.bucket (Seller.Kolichestvo w)
                         = Ok (Seller.Stock.stock s).
Proof.
  intros Hids. split.
  - intros e Hs. unfold Seller.upload_stocks.
    io_step ltac:(eassumption).
    by erewrite io_bind_Raise by (unfold lift; by rewrite Hs).
  - intros out U' Hs.
    destruct (divide_chunks out 100) as (chunks & Hc & Hcat & Hlen); [done|].
    exists chunks. split_and!; [done..| | |].
    + rewrite Hlen, (create_stocks_length _ _ _ _ Hs).
      change (Z.to_nat 100) with 100. f_equal. lia.
    + intros e w2 Hsend. unfold Seller.upload_stocks.
      io_step ltac:(eassumption).
      io_step ltac:(unfold lift; by rewrite Hs).
      io_step ltac:(unfold lift; by rewrite Hc).
      by erewrite io_bind_Raise by eassumption.
    + intros w2 Hsend. eexists. split_and!.
      * unfold Seller.upload_stocks.
        io_step ltac:(eassumption).
        io_step ltac:(unfold lift; by rewrite Hs).
        io_step ltac:(unfold lift; by rewrite Hc).
        io_step ltac:(eassumption). done.
      * apply sublist_filter.
      * intros s. rewrite list_elem_of_filter. tauto.
      * intros s [Hnz Hin]%list_elem_of_filter.
        by eapply create_stocks_nonzero_entry.
Qed.

(** [upload_prices] of seller.py fetches its own identifier list and
    prices it untouched: once the identifiers [U] are fetched, it sends the
    entries of [create_prices] for [U] in batches that together are these
    entries in order, raises what a failed batch raises, and on success
    returns the entries; with nothing to price it sends nothing. *)
Theorem seller_upload_prices_result fuel (F : list Seller.watch) w0 (U : list string) w1 :
  Seller.get_offer_ids get_product_list fuel w0 = Some (Ok U, w1) →
  ∃ chunks,
    Seller.divide (Seller.create_prices F U) 1000 = Ok chunks
    ∧ concat chunks = Seller.create_prices F U
    ∧ (∀ e w2,
         for_each (λ some_price, call (update_price some_price)) chunks w1
         = Some (Raise e, w2) →
         Seller.upload_prices get_product_list update_price fuel F w0
         = Some (Raise e, w2))
    ∧ (∀ w2,
         for_each (λ some_price, call (update_price some_price)) chunks w1
         = Some (Ok tt, w2) →
         Seller.upload_prices get_product_list update_price fuel F w0
         = Some (Ok (Seller.create_prices F U), w2))
    ∧ ((∀ w, w ∈ F → Seller.Kod w ∉ U) →
       Seller.upload_prices get_product_list update_price fuel F w0 = Some (Ok [], w1)).
Proof.
  intros Hids.
  destruct (divide_chunks (Seller.create_prices F U) 1000) as (chunks & Hc & Hcat & Hlen);
    [done|].
  exists chunks. split_and!; [done..| | |].
  - intros e w2 Hsend. unfold Seller.upload_prices.
    io_step ltac:(eassumption).
    io_step ltac:(unfold lift; by rewrite Hc).
    by erewrite io_bind_Raise by eassumption.
  - intros w2 Hsend. unfold Seller.upload_prices.
    io_step ltac:(eassumption).
    io_step ltac:(unfold lift; by rewrite Hc).
    io_step ltac:(eassumption). done.
  - intros HF.
    assert (Hnil : Seller.create_prices F U = []).
    { rewrite create_prices_spec, (filter_ext_elem _ (λ _, False)).
      - clear. by induction F.
      - intros w Hw. split; [|done]. by apply HF. }
    rewrite Hnil in Hlen, Hcat, Hc. simpl in Hlen.
    destruct chunks; [|done].
    unfold Seller.upload_prices.
    io_step ltac:(eassumption). rewrite Hnil.
    io_step ltac:(unfold lift; by rewrite Hc). done.
Qed.

End seller_uploads.

Lemma seller_upload_stocks_result_witness :
  ∃ not_empty,
    Seller.upload_stocks Mock.seller_list Mock.seller_update_stocks 1 Mock.feed []
    = Some (Ok (not_empty,
                [Seller.Stock.mk "A" 100; Seller.Stock.mk "B" 0; Seller.Stock.mk "C" 0]),
            [Mock.StocksSent "" ["A"; "B"; "C"]]).
Proof.
  destruct (seller_upload_stocks_result Mock.seller_list Mock.seller_update_stocks
              1 Mock.feed [] ["A"; "B"; "C"] [] eq_refl) as [_ H].
  destruct (H [Seller.Stock.mk "A" 100; Seller.Stock.mk "B" 0; Seller.Stock.mk "C" 0]
              ["C"] eq_refl) as (chunks & Hc & _ & _ & _ & Hok).
  injection Hc as <-.
  destruct (Hok [Mock.StocksSent "" ["A"; "B"; "C"]] eq_refl) as (ne & Hne & _).
  by exists ne.
Defined.

Lemma seller_upload_prices_result_witness :
  Seller.upload_prices Mock.seller_list Mock.seller_update_price 1 Mock.feed []
  = Some (Ok (Seller.create_prices Mock.feed ["A"; "B"; "C"]),
          [Mock.PricesSent ["A"; "B"]]).
Proof.
  destruct (seller_upload_prices_result Mock.seller_list Mock.seller_update_price
              1 Mock.feed [] ["A"; "B"; "C"] [] eq_refl)
    as (chunks & Hc & _ & _ & Hok & _).
  injection Hc as <-. exact (Hok _ eq_refl).
Defined.

Section market_uploads.
Context {W : Type}.
Variable get_product_list : string → string → W → result Market.product_page * W.
Variable update_stocks : list Market.Stock.t → string → W → result unit * W.
Variable update_price : list Market.Price.t → string → W → result unit * W.
Variable utcnow : W → string.

(** [upload_prices] of market.py, once the identifiers [U] are fetched: a
    listed feed record whose price has no digit before its first "." ends
    the call with [ValueError] before any batch is sent; otherwise the
    entries are sent in batches that together are the entries in order, a
    failed batch is raised, and on success the entries are returned. *)
Theorem market_upload_prices_result fuel (F : list Seller.watch) campaign_id w0
    (U : list string) w1 :
  Market.get_offer_ids get_product_list fuel campaign_id w0 = Some (Ok U, w1) →
  (∀ w, w ∈ F → Seller.Kod w ∈ U →
        Seller.price_conversion (Seller.Tsena w) = EmptyString →
        Market.upload_prices get_product_list update_price fuel F campaign_id w0
        = Some (Raise ValueError, w1))
  ∧ ∀ prices, Market.create_prices F U = Ok prices →
      ∃ chunks,
        Seller.divide prices 500 = Ok chunks
        ∧ concat chunks = prices
        ∧ (∀ e w2,
             for_each (λ some_prices, call (update_price some_prices campaign_id))
               chunks w1 = Some (Raise e, w2) →
             Market.upload_prices get_product_list update_price fuel F campaign_id w0
             = Some (Raise e, w2))
        ∧ ∀ w2,
            for_each (λ some_prices, call (update_price some_prices campaign_id))
              chunks w1 = Some (Ok tt, w2) →
            Market.upload_prices get_product_list update_price fuel F campaign_id w0
            = Some (Ok prices, w2).
Proof.
  intros Hids. split.
  - intros w Hw HU Hempty.
    destruct (Market.create_prices F U) as [prices|e] eqn:Hp.
    + exfalso.
      destruct (proj1 (market_create_prices_is_Ok F U) (ex_intro _ prices Hp) w Hw HU)
        as [Hne _].
      done.
    + pose proof (market_create_prices_Raise _ _ _ Hp) as ->.
      unfold Market.upload_prices.
      io_step ltac:(eassumption).
      by erewrite io_bind_Raise by (unfold lift; by rewrite Hp).
  - intros prices Hp.
    destruct (divide_chunks prices 500) as (chunks & Hc & Hcat & _); [done|].
    exists chunks. split_and!; [done..| |].
    + intros e w2 Hsend. unfold Market.upload_prices.
      io_step ltac:(eassumption).
      io_step ltac:(unfold lift; by rewrite Hp).
      io_step ltac:(unfold lift; by rewrite Hc).
      by erewrite io_bind_Raise by eassumption.
    + intros w2 Hsend. unfold Market.upload_prices.
      io_step ltac:(eassumption).
      io_step ltac:(unfold lift; by rewrite Hp).
      io_step ltac:(unfold lift; by rewrite Hc).
      io_step ltac:(eassumption). done.
Qed.

(** [upload_stocks] of market.py, once the identifiers [U] are fetched and
    [create_stocks] has returned [stocks]: every entry holds exactly one
    item, so the filter's subscript [0] is defined; the entries go out in
    [ceil(len(U) / 2000)] batches; and on success the call returns the
    entries together with those whose count is not zero. *)
Theorem market_upload_stocks_result fuel (F : list Seller.watch) campaign_id warehouse_id
    w0 (U : list string) w1 stocks U' :
  Market.get_offer_ids get_product_list fuel campaign_id w0 = Some (Ok U, w1) →
  Market.create_stocks (utcnow w1) F U warehouse_id = Ok (stocks, U') →
  Forall (λ s, length (Market.Stock.items s) = 1
               ∧ Market.Stock.warehouseId s = warehouse_id) stocks
  ∧ ∃ chunks,
      Seller.divide stocks 2000 = Ok chunks
      ∧ concat chunks = stocks
      ∧ length chunks = (length U + 1999) / 2000
      ∧ (∀ e w2,
           for_each (λ some_stock, call (update_stocks some_stock campaign_id))
             chunks w1 = Some (Raise e, w2) →
           Market.upload_stocks get_product_list update_stocks utcnow
             fuel F campaign_id warehouse_id w0 = Some (Raise e, w2))
      ∧ ∀ w2,
          for_each (λ some_stock, call (update_stocks some_stock campaign_id))
            chunks w1 = Some (Ok tt, w2) →
          Market.upload_stocks get_product_list update_stocks utcnow
            fuel F campaign_id warehouse_id w0
          = Some (Ok (filter (λ s, Market.first_count s ≠ 0%Z) stocks, stocks), w2).
Proof.
  intros Hids Hs.
  pose proof Hs as Hs'. rewrite market_create_stocks_spec in Hs'.
  destruct (Seller.create_stocks F U) as [[out U'']|e] eqn:Hout; [|done].
  injection Hs' as <- <-. split.
  - apply Forall_fmap, Forall_forall. by intros s _.
  - destruct (divide_chunks (market_stock warehouse_id (utcnow w1) <$> out) 2000)
      as (chunks & Hc & Hcat & Hlen); [done|].
    exists chunks. split_and!; [done..| | |].
    + rewrite Hlen, length_fmap, (create_stocks_length _ _ _ _ Hout).
      change (Z.to_nat 2000) with 2000. f_equal. lia.
    + intros e w2 Hsend. unfold Market.upload_stocks.
      io_step ltac:(eassumption).
      io_step ltac:(reflexivity).
      io_step ltac:(unfold lift; by rewrite Hs).
      io_step ltac:(unfold lift; by rewrite Hc).
      by erewrite io_bind_Raise by eassumption.
    + intros w2 Hsend. unfold Market.upload_stocks.
      io_step ltac:(eassumption).
      io_step ltac:(reflexivity).
      io_step ltac:(unfold lift; by rewrite Hs).
      io_step ltac:(unfold lift; by rewrite Hc).
      io_step ltac:(eassumption). done.
Qed.

End market_uploads.

(** ** A code the feed repeats *)

(** For pairwise-distinct identifiers, the first feed record of a code is
    the one that counts: a later record with a code already seen changes
    nothing in what [create_stocks] returns or leaves, and its quantity is
    not read.  [create_prices] on the other hand prices it again. *)
Theorem create_stocks_first_record_wins (F1 F2 : list Seller.watch) w (U : list string) :
  NoDup U →
  Seller.Kod w ∈ Seller.Kod <$> F1 →
  Seller.create_stocks (F1 ++ w :: F2) U = Seller.create_stocks (F1 ++ F2) U
  ∧ (∀ date wh,
       Market.create_stocks date (F1 ++ w :: F2) U wh
       = Market.create_stocks date (F1 ++ F2) U wh)
  ∧ (Seller.Kod w ∈ U →
     length (Seller.create_prices (F1 ++ w :: F2) U)
     = S (length (Seller.create_prices (F1 ++ F2) U))).
Proof.
  intros HU Hw.
  assert (Hskip : Seller.Kod w ∉ remaining F1 U).
  { rewrite remaining_NoDup by done. by intros [? _]%list_elem_of_filter. }
  assert (Hs : Seller.create_stocks (F1 ++ w :: F2) U
               = Seller.create_stocks (F1 ++ F2) U).
  { rewrite !create_stocks_spec.
    destruct (matched_app F1 (w :: F2) U) as [-> ->].
    destruct (matched_app F1 F2 U) as [-> ->].
    simpl. by rewrite bool_decide_eq_false_2. }
  split_and!; [done| |].
  - intros date wh. by rewrite !market_create_stocks_spec, Hs.
  - intros HwU. rewrite !create_prices_spec, !length_fmap, !filter_app, !length_app.
    rewrite filter_cons_True by done. simpl. lia.
Qed.

Lemma create_stocks_first_record_wins_witness :
  Seller.create_stocks Mock.repeated_feed ["A"; "B"]
  = Ok ([Seller.Stock.mk "A" 5; Seller.Stock.mk "B" 0], ["B"]).
Proof.
  assert (HU : NoDup ["A"; "B"]) by (by apply (bool_decide_unpack _)).
  refine (eq_trans
            (proj1 (create_stocks_first_record_wins
                      [ {| Seller.Kod := "A"; Seller.Kolichestvo := "5";
                           Seller.Tsena := "10.00" |} ] []
                      {| Seller.Kod := "A"; Seller.Kolichestvo := "abc";
                         Seller.Tsena := "12.00" |}
                      ["A"; "B"] HU _)) eq_refl).
  by left.
Defined.

(** ** Witnesses on the test transports *)

Lemma market_create_prices_values_witness :
  is_Ok (Market.create_prices Mock.feed ["A"; "B"; "C"]).
Proof.
  destruct (market_create_prices_values Mock.feed ["A"; "B"; "C"]) as [Hok _].
  apply Hok. intros w Hw _.
  apply elem_of_cons in Hw as [->|Hw]; [done|].
  apply elem_of_cons in Hw as [->|Hw]; [done|].
  by apply elem_of_nil in Hw.
Defined.

Lemma pagers_raise_transport_failures_witness :
  Seller.get_offer_ids Mock.second_fails 2 tt = Some (Raise ReadTimeout, tt).
Proof.
  destruct pagers_raise_transport_failures as [Hseller _].
  apply (proj1 (Hseller unit Mock.second_fails 2 tt ReadTimeout tt)).
  exists 2. split; [lia|].
  eapply seller_fails_later; [reflexivity|done|].
  by apply seller_fails_now.
Defined.

Lemma market_upload_prices_result_witness :
  ∃ prices,
    Market.upload_prices Mock.market_list Mock.market_update_price 1 Mock.feed "FBS" []
    = Some (Ok prices, [Mock.PricesSent ["A"; "B"]])
    ∧ Market.value ∘ Market.Price.price <$> prices = [100%Z; 50%Z].
Proof.
  destruct (market_upload_prices_result Mock.market_list Mock.market_update_price
              1 Mock.feed "FBS" [] ["A"; "B"; "C"] [] eq_refl) as [_ H].
  destruct (H _ eq_refl) as (chunks & Hc & _ & _ & Hok).
  injection Hc as <-. eexists. split; [exact (Hok _ eq_refl)|done].
Defined.

Lemma market_upload_stocks_result_witness :
  ∃ not_empty stocks,
    Market.upload_stocks Mock.market_list (Mock.market_update_stocks []) Mock.clock
      1 Mock.feed "FBS" "W1" []
    = Some (Ok (not_empty, stocks), [Mock.StocksSent "FBS" ["A"; "B"; "C"]])
    ∧ Market.Stock.sku <$> not_empty = ["A"].
Proof.
  destruct (market_upload_stocks_result Mock.market_list (Mock.market_update_stocks [])
              Mock.clock 1 Mock.feed "FBS" "W1" [] ["A"; "B"; "C"] [] _ ["C"]
              eq_refl eq_refl) as [_ (chunks & Hc & _ & _ & _ & Hok)].
  injection Hc as <-. do 2 eexists. split; [exact (Hok _ eq_refl)|done].
Defined.
